(** * Kabak word game bot: a shallow embedding of [bot.py]

    The development follows the layout of the source file: string
    utilities, [compare_word] and [score_from], the turn queue, the command
    handlers ([join], [begin], [handle_guess_word], [steal_handler],
    [reset_game]) and the snapshot file written by [save_state]. *)

From Stdlib Require Import ZArith String Ascii Lia.
From stdpp Require Import base numbers option list gmultiset gmap pretty sorting.

Local Open Scope Z_scope.

(** ** Python strings

    A Python [str] is a sequence of Unicode code points. *)

Abbreviation char := N (only parsing).
Abbreviation str := (list N) (only parsing).

(** An ASCII literal as a Python string. *)
Definition py (s : string) : str :=
  (λ a, N_of_ascii a) <$> list_ascii_of_string s.

(** [str.upper], [str.lower] and [str.strip] are methods of the Python
    runtime (they depend on the Unicode tables); the model takes them as an
    interface. *)
Class StrOps := {
  upper : str → str;
  lower : str → str;
  strip : str → str
}.

(** [list.remove(x)]: drops the first occurrence of [x]. *)
Fixpoint list_remove_first (x : char) (l : str) : str :=
  match l with
  | [] => []
  | y :: l' => if decide (x = y) then l' else y :: list_remove_first x l'
  end.

(** ** [compare_word] and [score_from] *)

(** The three strings ["green"], ["yellow"], ["gray"] that [compare_word]
    produces (Exact, Partial and Absent in the specification). *)
Inductive colour := green | yellow | gray.

Global Instance colour_eq_dec : EqDecision colour.
Proof. solve_decision. Defined.

(** First loop of [compare_word]: [for i, ch in enumerate(guess)], starting at
    index [i]. [None] is the [IndexError] of [target[i]]. *)
Fixpoint mark_green (target : str) (i : nat) (guess : str)
    (res : list colour) (remaining : str) : option (list colour * str) :=
  match guess with
  | [] => Some (res, remaining)
  | ch :: guess' =>
      match target !! i with
      | None => None
      | Some t =>
          if decide (ch = t)
          then mark_green target (S i) guess' (<[i:=green]> res) remaining
          else mark_green target (S i) guess' res (remaining ++ [t])
      end
  end.

(** Second loop of [compare_word]. *)
Fixpoint mark_yellow (i : nat) (guess : str)
    (res : list colour) (remaining : str) : list colour :=
  match guess with
  | [] => res
  | ch :: guess' =>
      if bool_decide (res !! i = Some gray) && bool_decide (ch ∈ remaining)
      then mark_yellow (S i) guess' (<[i:=yellow]> res)
             (list_remove_first ch remaining)
      else mark_yellow (S i) guess' res remaining
  end.

Definition compare_word `{StrOps} (guess target : str) : option (list colour) :=
  let guess := upper guess in
  let target := upper target in
  let res := replicate (length guess) gray in
  match mark_green target 0 guess res [] with
  | None => None
  | Some (res, remaining) => Some (mark_yellow 0 guess res remaining)
  end.

Definition score_from (colours : list colour) : Z :=
  foldr Z.add 0
    ((λ c, match c with green => 10 | yellow => 5 | gray => 0 end) <$> colours).

(** *** The two-pass rule as the specification words it *)

(** Letters of the secret matched exactly by the guess. *)
Fixpoint exact_letters (g s : str) : str :=
  match g, s with
  | a :: g', b :: s' =>
      if decide (a = b) then b :: exact_letters g' s' else exact_letters g' s'
  | _, _ => []
  end.

(** Second pass over the guess, [rem] being the remaining-letter multiset. *)
Fixpoint partial_pass (g s : str) (rem : gmultiset N) : list colour :=
  match g, s with
  | a :: g', b :: s' =>
      if decide (a = b) then green :: partial_pass g' s' rem
      else if decide (a ∈ rem)
           then yellow :: partial_pass g' s' (rem ∖ {[+ a +]})
           else gray :: partial_pass g' s' rem
  | _, _ => []
  end.

Definition two_pass (g s : str) : list colour :=
  partial_pass g s (list_to_set_disj s ∖ list_to_set_disj (exact_letters g s)).

(** Number of positions of [g] holding letter [c] that are marked green or
    yellow in [res], and number of occurrences of [c] in a word. *)
Definition marked (c : char) (g : str) (res : list colour) : nat :=
  length (filter (λ p, p.1 = c ∧ p.2 ≠ gray) (zip g res)).

Definition occurrences (c : char) (w : str) : nat :=
  length (filter (λ x, x = c) w).

(** *** The two loops of [compare_word] read structurally

    [greens] and [leftover] are the [res] and [remaining] lists after the
    first loop, [yellows] is [res] after the second one. *)

Fixpoint greens (g t : str) : list colour :=
  match g, t with
  | a :: g', b :: t' =>
      (if decide (a = b) then green else gray) :: greens g' t'
  | _, _ => []
  end.

Fixpoint leftover (g t : str) : str :=
  match g, t with
  | a :: g', b :: t' =>
      if decide (a = b) then leftover g' t' else b :: leftover g' t'
  | _, _ => []
  end.

Fixpoint yellows (g : str) (rs : list colour) (remaining : str) : list colour :=
  match g, rs with
  | ch :: g', r :: rs' =>
      if bool_decide (r = gray) && bool_decide (ch ∈ remaining)
      then yellow :: yellows g' rs' (list_remove_first ch remaining)
      else r :: yellows g' rs' remaining
  | _, _ => rs
  end.

(** ** Session data *)

(** [str(n)] for an integer [n]. *)
Definition str_of_int (n : Z) : str := py (pretty n).

(** A Python [dict] with string keys: the entries in insertion order, each
    key at most once. The order is kept because [begin] hands
    [list(players.keys())] to [random.shuffle]. *)
Fixpoint dict_get {V} (k : str) (d : list (str * V)) : option V :=
  match d with
  | [] => None
  | (k', v) :: d' => if decide (k = k') then Some v else dict_get k d'
  end.

(** [d[k] = v]: replaces the value in place, or adds the entry at the end. *)
Fixpoint dict_set {V} (k : str) (v : V) (d : list (str * V)) : list (str * V) :=
  match d with
  | [] => [(k, v)]
  | (k', v') :: d' =>
      if decide (k = k') then (k, v) :: d' else (k', v') :: dict_set k v d'
  end.

(** [d[k]] is updated in place through a reference to it. *)
Fixpoint dict_alter {V} (f : V → V) (k : str) (d : list (str * V))
    : list (str * V) :=
  match d with
  | [] => []
  | (k', v) :: d' =>
      if decide (k = k') then (k', f v) :: d' else (k', v) :: dict_alter f k d'
  end.

Definition dict_keys {V} (d : list (str * V)) : list str := d.*1.

(** [ctx.bot_data["players"][uid]] *)
Record Player := {
  username : str;
  score : Z;
  last_active : str
}.

Definition add_score (delta : Z) (p : Player) : Player :=
  {| username := username p; score := score p + delta;
     last_active := last_active p |}.

Definition touch (now : str) (p : Player) : Player :=
  {| username := username p; score := score p; last_active := now |}.

(** [ctx.bot_data] *)
Record BotData := {
  admin_id : Z;
  players : list (str * Player);
  queue : list str;
  state_game_active : bool
}.

Definition set_players (ps : list (str * Player)) (bd : BotData) : BotData :=
  {| admin_id := admin_id bd; players := ps; queue := queue bd;
     state_game_active := state_game_active bd |}.

Definition set_queue (q : list str) (bd : BotData) : BotData :=
  {| admin_id := admin_id bd; players := players bd; queue := q;
     state_game_active := state_game_active bd |}.

Definition set_active (b : bool) (bd : BotData) : BotData :=
  {| admin_id := admin_id bd; players := players bd; queue := queue bd;
     state_game_active := b |}.

(** [dyn["last_attempt"]] and the entries of [state["buildings"]] in
    [game_state.json]. *)
Record Attempt := {
  attempt_user_id : str;
  attempt_username : str;
  attempt_time : str;
  attempt_word : str
}.

Record Dyn := {
  dyn_id : Z;
  last_attempt : option Attempt;
  is_closed : bool
}.

(** The dict stored in [game_state.json]; a key that is absent is [None]. *)
Record State := {
  buildings : option (list Dyn);
  state_queue : option (list str);
  game_state : option str
}.

Definition empty_state : State :=
  {| buildings := None; state_queue := None; game_state := None |}.

(** An entry of [cfg["buildings"]] in [config.json]; the name, the story and
    the photo are only displayed. *)
Record Building := {
  building_id : Z;
  target_word : str
}.

(** The files next to [bot.py]: [cfg.get("buildings", [])] of [config.json]
    (never written), [game_state.json] and [game_state.tmp]; a file that does
    not exist is [None]. *)
Record Files := {
  config : list Building;
  state_path : option State;
  tmp_path : option State
}.

(** [load_json(STATE_PATH)] *)
Definition load_state (fs : Files) : State :=
  match state_path fs with
  | Some state => state
  | None => empty_state
  end.

(** [save_state]: dump to the [.tmp] file, then [tmp.replace(STATE_PATH)]. *)
Definition write_tmp (state : State) (fs : Files) : Files :=
  {| config := config fs; state_path := state_path fs; tmp_path := Some state |}.

Definition replace_tmp (fs : Files) : Files :=
  {| config := config fs; state_path := tmp_path fs; tmp_path := None |}.

Definition save_state (state : State) (fs : Files) : Files :=
  replace_tmp (write_tmp state fs).

(** [STATE_PATH.unlink()] *)
Definition unlink_state (fs : Files) : Files :=
  {| config := config fs; state_path := None; tmp_path := tmp_path fs |}.

(** [next((x for x in l if x["id"] == b_id), None)] *)
Fixpoint find_building (b_id : Z) (l : list Building) : option Building :=
  match l with
  | [] => None
  | b :: l' => if decide (building_id b = b_id) then Some b else find_building b_id l'
  end.

Fixpoint find_dyn (b_id : Z) (l : list Dyn) : option Dyn :=
  match l with
  | [] => None
  | d :: l' => if decide (dyn_id d = b_id) then Some d else find_dyn b_id l'
  end.

(** The mutable state of location [b_id] as the handlers read it. *)
Definition location_state (b_id : Z) (fs : Files) : option Dyn :=
  find_dyn b_id (default [] (buildings (load_state fs))).

(** The whole world of the process: [ctx.bot_data], the [guess_building_id]
    marker of each user's [ctx.user_data], and the files. *)
Record World := {
  bot_data : BotData;
  user_data : gmap Z Z;
  files : Files
}.

Definition set_bot (bd : BotData) (w : World) : World :=
  {| bot_data := bd; user_data := user_data w; files := files w |}.

Definition set_user_data (ud : gmap Z Z) (w : World) : World :=
  {| bot_data := bot_data w; user_data := ud; files := files w |}.

Definition set_files (fs : Files) (w : World) : World :=
  {| bot_data := bot_data w; user_data := user_data w; files := fs |}.

(** ** What the bot sends *)

(** The texts passed to [reply] (or to [callback_query.answer]); the
    constructors carry the names of the specification's outcomes. *)
Inductive Answer :=
  | AdminOnly            (* access is for the admin only *)
  | NotRegistered        (* first /join *)
  | NotStarted           (* the game has not started yet *)
  | AdminCannotJoin      (* the administrator does not take part *)
  | AlreadyJoined        (* you are in the game already *)
  | Joined               (* you have joined the party *)
  | NoPlayers            (* no players *)
  | Started (first : str)
  | NotYourTurn          (* wait for your turn *)
  | InvalidLength        (* the word must have exactly 5 letters *)
  | NotInDictionary      (* the word is not in the dictionary *)
  | LocationNotFound     (* building not found *)
  | DuplicateGuess       (* you have tried this word already *)
  | LocationClosed       (* the building is closed already *)
  | Solved (colours : list colour)
  | Scored (colours : list colour) (points : Z)
  | StealOutOfTurn       (* one can rob only in one's own turn *)
  | InvalidTarget        (* player not found *)
  | StealSuccess (dice : Z)
  | StealFailure (dice : Z)
  | ResetDone
  | AdminMenu
  | Menu (is_my_turn can_steal : bool)
  | TargetList (targets : list str)
  | AskWord
  | Display.             (* score table, board, building card, open list *)

Inductive Event :=
  | Reply (a : Answer)
  | TurnNotice (uid username : str)          (* "your turn" sent to [uid] *)
  | VictimNotice (uid : str) (success : bool).

Inductive Exn := IndexError | KeyError.

(** What a handler leaves behind: the world, the messages sent, and the
    exception if it raised. *)
Record Outcome := {
  world : World;
  sent : list Event;
  raised : option Exn
}.

Definition ret (w : World) (evs : list Event) : Outcome :=
  {| world := w; sent := evs; raised := None |}.

Definition raise (e : Exn) (w : World) (evs : list Event) : Outcome :=
  {| world := w; sent := evs; raised := Some e |}.

(** Runs [k] after [o] unless [o] raised. *)
Definition and_then (o : Outcome) (k : World → Outcome) : Outcome :=
  match raised o with
  | Some _ => o
  | None =>
      let o' := k (world o) in
      {| world := world o'; sent := sent o ++ sent o'; raised := raised o' |}
  end.

(** [upd.effective_user] *)
Record User := {
  tg_id : Z;
  tg_username : option str;
  full_name : str
}.

(** [upd.effective_user.username or upd.effective_user.full_name] *)
Definition display_name (u : User) : str :=
  match tg_username u with
  | Some (c :: name) => c :: name
  | _ => full_name u
  end.

(** [upd.callback_query.data], split at the first colon as
    [callback_handler] and the handlers read it. *)
Inductive Data :=
  | DGuess                  (* "guess" *)
  | DGuessAt (b_id : Z)     (* "guess:<id>" *)
  | DSteal                  (* "steal" *)
  | DStealAt (target_id : str)  (* "steal:<target_id>" *)
  | DBuilding (b_id : Z)    (* "building:<id>" *)
  | DResetGame              (* "reset_game" *)
  | DMenu                   (* "menu" *)
  | DScore                  (* "score" *)
  | DShowBoard              (* "show_board" *)
  | DOther.

(** ** Random source

    [random.shuffle(x)] exchanges [x[i]] with [x[j]], [j = randbelow(i + 1)],
    for [i] from [len(x) - 1] down to [1]. The draws are an input of the
    model; each is reduced modulo [i + 1]. [random.randint(1, 6)] is an
    input of the handlers, ranging over [dice_faces]. *)

Definition swap (i j : nat) (x : list str) : list str :=
  match x !! i, x !! j with
  | Some a, Some b => <[j:=a]> (<[i:=b]> x)
  | _, _ => x
  end.

Fixpoint shuffle_from (i : nat) (draws : list nat) (x : list str) : list str :=
  match i with
  | O => x
  | S i' =>
      shuffle_from i' (tail draws) (swap i (hd 0%nat draws `mod` (i + 1)) x)
  end.

Definition shuffle (draws : list nat) (x : list str) : list str :=
  shuffle_from (length x - 1) draws x.

Definition dice_faces : list Z := [1; 2; 3; 4; 5; 6].

(** ** Decorators *)

(** [uid in ctx.bot_data["players"]] *)
Definition registered (uid : str) (bd : BotData) : bool :=
  bool_decide (is_Some (dict_get uid (players bd))).

Definition admin_only (u : User) (w : World) (func : World → Outcome) : Outcome :=
  if decide (tg_id u ≠ admin_id (bot_data w)) then ret w [Reply AdminOnly]
  else func w.

Definition active_player (u : User) (w : World) (func : World → Outcome) : Outcome :=
  let uid := str_of_int (tg_id u) in
  if negb (registered uid (bot_data w)) then ret w [Reply NotRegistered]
  else if negb (state_game_active (bot_data w)) then ret w [Reply NotStarted]
  else func w.

Definition player_or_admin (u : User) (w : World) (func : World → Outcome) : Outcome :=
  if decide (tg_id u = admin_id (bot_data w)) then func w
  else active_player u w func.

(** ** Queue and notices *)

Definition advance_queue (w : World) : Outcome :=
  let bd := bot_data w in
  match queue bd with
  | [] => ret w []
  | first :: rest =>
      let q := rest ++ [first] in
      let w' := set_bot (set_active true (set_queue q bd)) w in
      let next_uid := hd first q in
      match dict_get next_uid (players bd) with
      | None => raise KeyError w' []
      | Some p => ret w' [TurnNotice next_uid (username p)]
      end
  end.

(** [advance_queue] called [n] times in a row. *)
Fixpoint advance_times (n : nat) (w : World) : Outcome :=
  match n with
  | O => ret w []
  | S n' => and_then (advance_queue w) (advance_times n')
  end.

Definition notify_current_player (w : World) : Outcome :=
  match queue (bot_data w) with
  | [] => ret w []
  | uid :: _ =>
      match dict_get uid (players (bot_data w)) with
      | None => raise KeyError w []
      | Some p => ret w [TurnNotice uid (username p)]
      end
  end.

(** ** Commands *)

Definition join (u : User) (now : str) (w : World) : Outcome :=
  let bd := bot_data w in
  let uid := str_of_int (tg_id u) in
  if decide (tg_id u = admin_id bd) then ret w [Reply AdminCannotJoin]
  else if registered uid bd then ret w [Reply AlreadyJoined]
  else
    let p := {| username := display_name u; score := 0; last_active := now |} in
    let bd := set_players (dict_set uid p (players bd)) bd in
    let bd := set_queue (queue bd ++ [uid]) bd in
    ret (set_bot bd w) [Reply Joined].

Definition fresh_dyn (b : Building) : Dyn :=
  {| dyn_id := building_id b; last_attempt := None; is_closed := false |}.

Definition begin (u : User) (draws : list nat) (w : World) : Outcome :=
  admin_only u w (λ w,
    let bd := bot_data w in
    match dict_keys (players bd) with
    | [] => ret w [Reply NoPlayers]
    | keys =>
        let shuffled := shuffle draws keys in
        let bd := set_queue shuffled bd in
        let state := load_state (files w) in
        let cfg := config (files w) in
        let blds :=
          match buildings state with
          | None | Some [] => fresh_dyn <$> cfg
          | Some l => l
          end in
        let state :=
          {| buildings := Some blds; state_queue := Some shuffled;
             game_state := Some (py "active") |} in
        let w := set_files (save_state state (files w)) (set_bot bd w) in
        let bd := set_active true bd in
        let w := set_bot bd w in
        match shuffled with
        | [] => raise IndexError w []
        | first_uid :: _ =>
            match dict_get first_uid (players bd) with
            | None => raise KeyError w []
            | Some p =>
                and_then (ret w [Reply (Started (username p))])
                  notify_current_player
            end
        end
    end).

Definition menu (u : User) (w : World) : Outcome :=
  let bd := bot_data w in
  let uid := str_of_int (tg_id u) in
  if decide (tg_id u = admin_id bd) then ret w [Reply AdminMenu]
  else
    match dict_get uid (players bd) with
    | None => ret w [Reply NotRegistered]
    | Some me =>
        if negb (state_game_active bd) then ret w [Reply NotStarted]
        else
          let is_my_turn := bool_decide (head (queue bd) = Some uid) in
          let others :=
            existsb (λ pl, bool_decide (pl ≠ uid)) (dict_keys (players bd)) in
          let rich_other :=
            existsb (λ e, bool_decide (e.1 ≠ uid) && bool_decide (10 ≤ score e.2))
              (players bd) in
          let can_steal :=
            is_my_turn && others && bool_decide (2 ≤ score me) && rich_other in
          ret w [Reply (Menu is_my_turn can_steal)]
    end.

Definition score_cmd (u : User) (w : World) : Outcome :=
  if negb (state_game_active (bot_data w))
     && bool_decide (tg_id u ≠ admin_id (bot_data w))
  then ret w [Reply NotStarted]
  else ret w [Reply Display].

Definition reset_game (u : User) (w : World) : Outcome :=
  admin_only u w (λ w,
    let bd := bot_data w in
    let bd := set_active false (set_queue [] (set_players [] bd)) in
    ret (set_bot bd (set_files (unlink_state (files w)) w)) [Reply ResetDone]).

(** ** Robbery *)

Definition steal_target_kb (u : User) (w : World) : Outcome :=
  active_player u w (λ w,
    let uid := str_of_int (tg_id u) in
    ret w [Reply (TargetList
                    (filter (λ pid, pid ≠ uid) (dict_keys (players (bot_data w)))))]).

Definition steal_handler (u : User) (data : Data) (dice : Z) (w : World) : Outcome :=
  active_player u w (λ w,
    let uid := str_of_int (tg_id u) in
    let bd := bot_data w in
    match data with
    | DSteal =>
        match queue bd with
        | [] => raise IndexError w []
        | current :: _ =>
            if decide (current ≠ uid) then ret w [Reply StealOutOfTurn]
            else steal_target_kb u w
        end
    | DStealAt target_id =>
        let victim := dict_get target_id (players bd) in
        match dict_get uid (players bd) with
        | None => raise KeyError w []
        | Some thief =>
            match victim with
            | None => ret w [Reply InvalidTarget]
            | Some _ =>
                let success := bool_decide (5 ≤ dice) in
                let ps :=
                  if success
                  then dict_alter (add_score (-10)) target_id
                         (dict_alter (add_score 10) uid (players bd))
                  else dict_alter (add_score 2) target_id
                         (dict_alter (add_score (-2)) uid (players bd)) in
                let answer :=
                  if success then StealSuccess dice else StealFailure dice in
                let w := set_bot (set_players ps bd) w in
                and_then
                  (and_then
                     (ret w [VictimNotice target_id success; Reply answer])
                     advance_queue)
                  (menu u)
            end
        end
    | _ => ret w []
    end).

(** ** Callback dispatch *)

Definition is_guess_data (data : Data) : bool :=
  match data with
  | DGuess | DGuessAt _ => true
  | _ => false
  end.

(** The marker of a pending guess is dropped when the user presses a button
    that is not part of guessing. *)
Definition reset_marker (u : User) (data : Data) (w : World) : World :=
  match user_data w !! tg_id u with
  | Some b_id =>
      if bool_decide (b_id ≠ 0) && negb (is_guess_data data)
      then set_user_data (delete (tg_id u) (user_data w)) w
      else w
  | None => w
  end.

Definition callback_handler (u : User) (data : Data) (dice : Z) (w : World)
    : Outcome :=
  let w := reset_marker u data w in
  match data with
  | DGuess => ret w [Reply Display]
  | DGuessAt b_id =>
      ret (set_user_data (<[tg_id u := b_id]> (user_data w)) w) [Reply AskWord]
  | DStealAt _ => steal_handler u data dice w
  | DBuilding _ => player_or_admin u w (λ w, ret w [Reply Display])
  | DResetGame => reset_game u w
  | DMenu => menu u w
  | DScore => score_cmd u w
  | DShowBoard => player_or_admin u w (λ w, ret w [Reply Display])
  | DSteal => steal_handler u data dice w
  | DOther => ret w []
  end.

(** What holds of the registry and the queue in every world the process
    reaches: the keys are distinct, the queue is an arrangement of the keys,
    and before activation it is the keys in join order. *)
Definition session_inv (bd : BotData) : Prop :=
  NoDup (dict_keys (players bd))
  ∧ queue bd ≡ₚ dict_keys (players bd)
  ∧ (state_game_active bd = false → queue bd = dict_keys (players bd)).

(** [main()]: the bot starts with an empty session, whatever the files hold. *)
Definition main (ADMIN_ID : Z) (fs : Files) : World :=
  {| bot_data := {| admin_id := ADMIN_ID; players := []; queue := [];
                    state_game_active := false |};
     user_data := ∅;
     files := fs |}.

(** A restart of the process keeps the files only. *)
Definition restart (w : World) : World :=
  main (admin_id (bot_data w)) (files w).

Section Handlers.
Context `{ops : StrOps} (WORDS : list str).

(** ** Guessing *)

(** [last and last["word"].upper() == word] *)
Definition is_duplicate (dyn : option Dyn) (word : str) : bool :=
  match dyn ≫= last_attempt with
  | Some last => bool_decide (upper (attempt_word last) = word)
  | None => false
  end.

(** [dyn.get("is_closed")]; [dyn] is [None] for the fresh [{}]. *)
Definition closed (dyn : option Dyn) : bool :=
  match dyn with
  | Some d => is_closed d
  | None => false
  end.

Definition handle_guess_word (u : User) (text : str) (now1 now2 : str)
    (w : World) : Outcome :=
  active_player u w (λ w,
    match user_data w !! tg_id u with
    | None => ret w []
    | Some b_id =>
        let uid := str_of_int (tg_id u) in
        match queue (bot_data w) with
        | [] => raise IndexError w []
        | current :: _ =>
            if decide (current ≠ uid) then ret w [Reply NotYourTurn]
            else
              let w := set_user_data (delete (tg_id u) (user_data w)) w in
              let word := upper (strip text) in
              if decide (length word ≠ 5%nat) then ret w [Reply InvalidLength]
              else if decide (lower word ∉ WORDS)
              then ret w [Reply NotInDictionary]
              else
                match find_building b_id (config (files w)) with
                | None => ret w [Reply LocationNotFound]
                | Some building =>
                    let state := load_state (files w) in
                    let blds := default [] (buildings state) in
                    let dyn := find_dyn b_id blds in
                    if is_duplicate dyn word then ret w [Reply DuplicateGuess]
                    else if closed dyn then ret w [Reply LocationClosed]
                    else
                      match compare_word word (target_word building) with
                      | None => raise IndexError w []
                      | Some colours =>
                          let points := score_from colours in
                          let bd := bot_data w in
                          match dict_get uid (players bd) with
                          | None => raise KeyError w []
                          | Some player =>
                              let ps :=
                                dict_alter (λ p, touch now1 (add_score points p))
                                  uid (players bd) in
                              let w := set_bot (set_players ps bd) w in
                              let attempt :=
                                {| attempt_user_id := uid;
                                   attempt_username := username player;
                                   attempt_time := now2;
                                   attempt_word := word |} in
                              let solved :=
                                bool_decide
                                  (upper word = upper (target_word building)) in
                              let dyn' :=
                                (λ d, {| dyn_id := dyn_id d;
                                         last_attempt := Some attempt;
                                         is_closed :=
                                           if solved then true else is_closed d |})
                                <$> dyn in
                              let answer :=
                                if solved then Solved colours
                                else Scored colours points in
                              let blds' :=
                                (λ d, if decide (dyn_id d ≠ b_id) then d
                                      else default d dyn') <$> blds in
                              let state' :=
                                {| buildings := Some blds';
                                   state_queue := state_queue state;
                                   game_state := game_state state |} in
                              let w :=
                                set_files (save_state state' (files w)) w in
                              and_then
                                (and_then (ret w [Reply answer]) advance_queue)
                                (menu u)
                          end
                      end
                end
        end
    end).

(** ** The process *)

(** What reaches the bot: commands, text messages and button presses, each
    with the clock readings and random draws its handler consumes. *)
Inductive Action :=
  | Join (u : User) (now : str)
  | Begin (u : User) (draws : list nat)
  | MenuCmd (u : User)
  | ScoreCmd (u : User)
  | Text (u : User) (text : str) (now1 now2 : str)
  | Callback (u : User) (data : Data) (dice : Z).

Definition step (a : Action) (w : World) : Outcome :=
  match a with
  | Join u now => join u now w
  | Begin u draws => begin u draws w
  | MenuCmd u => menu u w
  | ScoreCmd u => score_cmd u w
  | Text u text now1 now2 => handle_guess_word u text now1 now2 w
  | Callback u data dice => callback_handler u data dice w
  end.

Fixpoint run (acts : list Action) (w : World) : World :=
  match acts with
  | [] => w
  | a :: acts' => run acts' (world (step a w))
  end.

(** The die of a button press is one of the six faces. *)
Definition valid (a : Action) : Prop :=
  match a with
  | Callback _ _ dice => dice ∈ dice_faces
  | _ => True
  end.

(** The worlds the process can be in. *)
Inductive reachable : World → Prop :=
  | reachable_main ADMIN_ID fs : reachable (main ADMIN_ID fs)
  | reachable_step a w :
      reachable w → valid a → reachable (world (step a w)).

End Handlers.

(** The ASCII fragment of the string methods, to run the model on examples. *)
Definition ascii_upper (c : char) : char :=
  if bool_decide (97 ≤ c ≤ 122)%N then (c - 32)%N else c.

Definition ascii_lower (c : char) : char :=
  if bool_decide (65 ≤ c ≤ 90)%N then (c + 32)%N else c.

Fixpoint ascii_lstrip (s : str) : str :=
  match s with
  | c :: s' => if decide (c = 32%N) then ascii_lstrip s' else s
  | [] => []
  end.

Definition ascii_strip (s : str) : str :=
  reverse (ascii_lstrip (reverse (ascii_lstrip s))).

Definition ascii_ops : StrOps :=
  {| upper := fmap ascii_upper; lower := fmap ascii_lower; strip := ascii_strip |}.

(** ** A small party, to run the model

    Alice and Bob join, the administrator starts the game (Alice moves
    first), Bob is robbed or a location is solved. *)

Definition alice : User :=
  {| tg_id := 11; tg_username := Some (py "alice"); full_name := py "Alice" |}.

Definition bob : User :=
  {| tg_id := 22; tg_username := None; full_name := py "Bob" |}.

Definition root : User :=
  {| tg_id := 99; tg_username := Some (py "root"); full_name := py "Root" |}.

Definition demo_files : Files :=
  {| config := [ {| building_id := 1; target_word := py "PEACH" |};
                 {| building_id := 2; target_word := py "ALLOW" |} ];
     state_path := None;
     tmp_path := None |}.

Definition demo_words : list str :=
  [py "cheap"; py "peach"; py "lolly"; py "allow"].

Definition noon : str := py "2025-01-01T12:00:00".

Definition party : list Action :=
  [Join alice noon; Join bob noon; Begin root [1%nat]].

(** The game just started and saved by [begin]. *)
Definition started : World :=
  run (ops:=ascii_ops) demo_words party (main 99 demo_files).

(** Alice picks location 1 and solves it; it is Bob's turn then. *)
Definition solving : list Action :=
  [Callback alice (DGuessAt 1) 1; Text alice (py "peach") noon noon].

Definition solved : World := run (ops:=ascii_ops) demo_words solving started.

(** Bob has picked the solved location 1 and is about to type a word. *)
Definition bob_at_solved : World :=
  run (ops:=ascii_ops) demo_words [Callback bob (DGuessAt 1) 1] solved.

(** Alice has tried CHEAP at location 1; Bob has picked the same location. *)
Definition bob_after_cheap : World :=
  run (ops:=ascii_ops) demo_words
    [Callback alice (DGuessAt 1) 1; Text alice (py "cheap") noon noon;
     Callback bob (DGuessAt 1) 1] started.

(** Both have joined, the game has not begun. *)
Definition joined : World :=
  run (ops:=ascii_ops) demo_words [Join alice noon; Join bob noon]
    (main 99 demo_files).

(** ** Further code of [bot.py] and of [rus_changer.py] *)

(** The points held by all registered players together. *)
Definition total_score (ps : list (str * Player)) : Z :=
  foldr (λ e acc, score e.2 + acc) 0 ps.

Section Solved.
Context `{ops : StrOps}.

(** Every location marked closed in the snapshot carries, as its last
    attempt, a word equal to its configured secret case-insensitively. *)
Definition solved_inv (fs : Files) : Prop :=
  Forall
    (λ d, is_closed d = true →
          ∃ last building,
            last_attempt d = Some last
            ∧ find_building (dyn_id d) (config fs) = Some building
            ∧ upper (attempt_word last) = upper (target_word building))
    (default [] (buildings (load_state fs))).

End Solved.



(** ** The rules text

    [RULES_CHUNKS]: the text of [rules.txt] cut into slices
    [raw[i : i + 4000]] for [i] in [range(0, len(raw), 4000)], or one
    standard message when the file does not exist. *)

(** [range(0, stop, step)] for a positive [step]. *)
Definition range_step (stop step : nat) : list nat :=
  (λ k, k * step)%nat <$> seq 0 ((stop + step - 1) / step).

Definition chunk_size : nat := 4000.

Definition rules_missing : str :=
  [128220; 32; 42; 1055; 1088; 1072; 1074; 1080; 1083; 1072; 32; 1087; 1086;
   1082; 1072; 32; 1085; 1077; 32; 1079; 1072; 1076; 1072; 1085; 1099; 46;
   42; 10; 1057; 1086; 1079; 1076; 1072; 1081; 1090; 1077; 32; 1092; 1072;
   1081; 1083; 32; 96; 114; 117; 108; 101; 115; 46; 116; 120; 116; 96; 32;
   1088; 1103; 1076; 1086; 1084; 32; 1089; 32; 96; 98; 111; 116; 46; 112;
   121; 96; 44; 32; 1095; 1090; 1086; 1073; 1099; 32; 1076; 1086; 1073;
   1072; 1074; 1080; 1090; 1100; 32; 1087; 1088; 1072; 1074; 1080; 1083;
   1072; 46]%N.

Definition RULES_CHUNKS (rules : option str) : list str :=
  match rules with
  | Some raw =>
      (λ i, take chunk_size (drop i raw))
      <$> range_step (length raw) chunk_size
  | None => [rules_missing]
  end.

(** ** The word list script ([rus_changer.py])

    [process_file] reads the lines of the source file and returns the lines
    it writes (each is written followed by a newline). *)

(** [word.replace("Ё", "Е")]: code point 1025 becomes 1045. *)
Definition replace_yo (word : str) : str :=
  (λ c, if decide (c = 1025%N) then 1045%N else c) <$> word.

Section WordList.
Context `{ops : StrOps}.

Fixpoint process_lines (lines : list str) (seen : gset (list N))
    (result : list str) : list str :=
  match lines with
  | [] => result
  | line :: lines' =>
      let word := strip line in
      if decide (word = []) then process_lines lines' seen result
      else
        let word := replace_yo (upper word) in
        if decide (word ∈ seen) then process_lines lines' seen result
        else process_lines lines' ({[word]} ∪ seen) (result ++ [word])
  end.

Definition process_file (lines : list str) : list str :=
  process_lines lines ∅ [].

(** The words of the non-blank lines, normalised, in file order. *)
Definition normalised (lines : list str) : list str :=
  (λ line, replace_yo (upper (strip line)))
  <$> filter (λ line, strip line ≠ []) lines.

End WordList.

(** ** The score table *)

(** [sorted(players.values(), key=lambda p: p["score"], reverse=True)]: the
    stable sort by decreasing score, written as an insertion sort (players
    with equal scores stay in registry order). *)
Fixpoint insert_desc (p : Player) (l : list Player) : list Player :=
  match l with
  | [] => [p]
  | q :: l' =>
      if decide (score q ≤ score p) then p :: q :: l' else q :: insert_desc p l'
  end.

Definition sorted_players (ps : list (str * Player)) : list Player :=
  foldr insert_desc [] (ps.*2).

(** [s.ljust(w)] and [s.rjust(w)] *)
Definition ljust (w : nat) (s : str) : str :=
  s ++ replicate (w - length s) 32%N.

Definition rjust (w : nat) (s : str) : str :=
  replicate (w - length s) 32%N ++ s.

(** [max(len(x) for x in l)] over a non-empty [l]. *)
Definition max_len (l : list str) : nat := foldr Nat.max 0%nat (length <$> l).

(** ["\n".join(lines)] *)
Fixpoint join_lines (lines : list str) : str :=
  match lines with
  | [] => []
  | [line] => line
  | line :: lines' => line ++ [10%N] ++ join_lines lines'
  end.

Definition nobody_plays : str :=
  [9881; 65039; 32; 1055; 1086; 1082; 1072; 32; 1085; 1080; 1082; 1090; 1086;
   32; 1085; 1077; 32; 1080; 1075; 1088; 1072; 1077; 1090]%N.

(** The hourglass and a blank, or three blanks. *)
Definition marker (current : bool) : str :=
  if current then [9203; 32]%N else [32; 32; 32]%N.

(** [cur_uid]: [queue[0]] when the game is active, else [None]. *)
Definition cur_uid (bd : BotData) : Exn + option str :=
  if state_game_active bd
  then match queue bd with
       | [] => inl IndexError
       | uid :: _ => inr (Some uid)
       end
  else inr None.

(** [cur_uid and p["username"] == players[cur_uid]["username"]] *)
Definition is_current (bd : BotData) (cur : option str) (p : Player)
    : Exn + bool :=
  match cur with
  | None | Some [] => inr false
  | Some uid =>
      match dict_get uid (players bd) with
      | None => inl KeyError
      | Some holder => inr (bool_decide (username p = username holder))
      end
  end.

Definition score_line (name_w score_w : nat) (p : Player) (current : bool)
    : str :=
  ljust name_w (username p) ++ [32; 32]%N
  ++ rjust score_w (str_of_int (score p)) ++ [32%N] ++ marker current.

(** The loop over [sorted_players]; it stops at the first row that
    raises. *)
Fixpoint score_lines (bd : BotData) (cur : option str) (name_w score_w : nat)
    (rows : list Player) : Exn + list str :=
  match rows with
  | [] => inr []
  | p :: rows' =>
      match is_current bd cur p with
      | inl e => inl e
      | inr current =>
          match score_lines bd cur name_w score_w rows' with
          | inl e => inl e
          | inr lines => inr (score_line name_w score_w p current :: lines)
          end
      end
  end.

Definition format_score_table (bd : BotData) : Exn + str :=
  match players bd with
  | [] => inr nobody_plays
  | _ =>
      let rows := sorted_players (players bd) in
      match cur_uid bd with
      | inl e => inl e
      | inr cur =>
          let name_w := max_len (username <$> rows) in
          let score_w := max_len ((λ p, str_of_int (score p)) <$> rows) in
          match score_lines bd cur name_w score_w rows with
          | inl e => inl e
          | inr lines =>
              inr ([96; 96; 96; 10]%N ++ join_lines lines
                   ++ [10; 96; 96; 96]%N)
          end
      end
  end.

(** Alice has picked location 1 and is about to type a word. *)
Definition alice_choosing : World :=
  run (ops:=ascii_ops) demo_words [Callback alice (DGuessAt 1) 1] started.

(** Alice got 25 points for CHEAP at location 1, Bob 20 for LOLLY at
    location 2; it is Alice's turn again. *)
Definition both_scored : World :=
  run (ops:=ascii_ops) demo_words
    [Callback alice (DGuessAt 1) 1; Text alice (py "cheap") noon noon;
     Callback bob (DGuessAt 2) 1; Text bob (py "lolly") noon noon] started.

(** The user an action comes from. *)
Definition actor (a : Action) : User :=
  match a with
  | Join u _ | Begin u _ | MenuCmd u | ScoreCmd u | Text u _ _ _
  | Callback u _ _ => u
  end.

(** * Properties *)

(** ** [compare_word] *)

Lemma mark_green_run (guess tp ts : str) (rp : list colour) (remaining : str) :
  length tp = length rp →
  (length guess ≤ length ts)%nat →
  mark_green (tp ++ ts) (length rp) guess
    (rp ++ replicate (length guess) gray) remaining
  = Some (rp ++ greens guess ts, remaining ++ leftover guess ts).
Proof.
  revert tp ts rp remaining.
  induction guess as [|ch guess IH]; intros tp ts rp remaining Hlen Hle.
  - simpl. by rewrite !app_nil_r.
  - destruct ts as [|t ts]; [simpl in Hle; lia|].
    simpl in Hle. cbn [mark_green length replicate greens leftover].
    rewrite <- Hlen, list_lookup_middle by done. rewrite Hlen.
    specialize (IH (tp ++ [t]) ts).
    rewrite <- (assoc_L (++) tp [t] ts) in IH. simpl in IH.
    destruct (decide (ch = t)) as [->|Hne].
    + rewrite insert_app_r_alt, Nat.sub_diag by lia. simpl.
      specialize (IH (rp ++ [green]) remaining).
      rewrite !length_app, !Nat.add_1_r in IH. simpl in IH.
      rewrite <- !(assoc_L (++) rp [green]) in IH. simpl in IH.
      apply IH; lia.
    + specialize (IH (rp ++ [gray]) (remaining ++ [t])).
      rewrite !length_app, !Nat.add_1_r in IH. simpl in IH.
      rewrite <- !(assoc_L (++) rp [gray]) in IH. simpl in IH.
      rewrite <- (assoc_L (++) remaining [t]) in IH. simpl in IH.
      apply IH; lia.
Qed.

Lemma mark_yellow_run (guess : str) (rp rs : list colour) (remaining : str) :
  length rs = length guess →
  mark_yellow (length rp) guess (rp ++ rs) remaining
  = rp ++ yellows guess rs remaining.
Proof.
  revert rp rs remaining.
  induction guess as [|ch guess IH]; intros rp rs remaining Hlen.
  - by destruct rs.
  - destruct rs as [|r rs]; [done|]. simpl in Hlen.
    cbn [mark_yellow yellows].
    rewrite list_lookup_middle by done.
    assert (bool_decide (Some r = Some gray) = bool_decide (r = gray)) as ->.
    { apply bool_decide_ext. naive_solver. }
    destruct (bool_decide (r = gray) && bool_decide (ch ∈ remaining)).
    + rewrite insert_app_r_alt, Nat.sub_diag by lia. simpl.
      specialize (IH (rp ++ [yellow]) rs (list_remove_first ch remaining)).
      rewrite !length_app, !Nat.add_1_r in IH.
      rewrite <- !(assoc_L (++) rp [yellow]) in IH. simpl in IH.
      apply IH. lia.
    + specialize (IH (rp ++ [r]) rs remaining).
      rewrite !length_app, !Nat.add_1_r in IH.
      rewrite <- !(assoc_L (++) rp [r]) in IH. simpl in IH.
      apply IH. lia.
Qed.

(** [compare_word] never raises on words of equal length (after
    upper-casing) and computes [yellows] over [greens]. *)
Lemma compare_word_structural `{StrOps} (guess target : str) :
  (length (upper guess) ≤ length (upper target))%nat →
  compare_word guess target
  = Some (yellows (upper guess) (greens (upper guess) (upper target))
            (leftover (upper guess) (upper target))).
Proof.
  intros Hle. unfold compare_word.
  pose proof (mark_green_run (upper guess) [] (upper target) [] [] eq_refl Hle)
    as Hg.
  simpl in Hg. rewrite Hg.
  f_equal. apply (mark_yellow_run (upper guess) []).
  clear Hg. revert Hle. generalize (upper target). generalize (upper guess).
  induction l as [|a l IH]; intros [|b t] Hle; simpl in *; try done; try lia.
  f_equal. apply IH. lia.
Qed.

(** The list [remaining] of the code is the remaining-letter multiset of the
    specification. *)
Lemma list_remove_first_disj (x : char) (l : str) :
  x ∈ l →
  list_to_set_disj (list_remove_first x l)
  = (list_to_set_disj l ∖ {[+ x +]} : gmultiset N).
Proof.
  induction l as [|y l IH]; intros Hin; [by apply elem_of_nil in Hin|].
  simpl. destruct (decide (x = y)) as [->|Hne].
  - clear IH Hin. multiset_solver.
  - apply elem_of_cons in Hin as [?|Hin]; [done|].
    simpl. rewrite (IH Hin).
    assert (x ∈ (list_to_set_disj l : gmultiset N))
      by by apply elem_of_list_to_set_disj.
    multiset_solver.
Qed.

Lemma leftover_exact_split (g t : str) :
  length g = length t →
  (list_to_set_disj t : gmultiset N)
  = list_to_set_disj (leftover g t) ⊎ list_to_set_disj (exact_letters g t).
Proof.
  revert t. induction g as [|a g IH]; intros [|b t] Hlen; simplify_eq/=.
  - multiset_solver.
  - rewrite (IH t) by done. destruct (decide (a = b)); simpl; multiset_solver.
Qed.

Lemma yellows_partial_pass (g t remaining : str) :
  length g = length t →
  yellows g (greens g t) remaining
  = partial_pass g t (list_to_set_disj remaining).
Proof.
  revert t remaining.
  induction g as [|a g IH]; intros [|b t] remaining Hlen; simplify_eq/=; [done|].
  destruct (decide (a = b)) as [->|Hne]; simpl.
  - f_equal. by apply IH.
  - destruct (decide (a ∈ (list_to_set_disj remaining : gmultiset N)))
      as [Hin|Hout].
    + apply elem_of_list_to_set_disj in Hin.
      rewrite bool_decide_eq_true_2 by done.
      f_equal. rewrite IH by done. by rewrite list_remove_first_disj.
    + rewrite elem_of_list_to_set_disj in Hout.
      rewrite bool_decide_eq_false_2 by done.
      f_equal. by apply IH.
Qed.

(** Counting marks letter by letter. *)
Lemma marked_cons (c a : char) (g : str) (r : colour) (rs : list colour) :
  marked c (a :: g) (r :: rs)
  = ((if bool_decide (a = c ∧ r ≠ gray) then 1 else 0) + marked c g rs)%nat.
Proof.
  unfold marked. simpl. rewrite filter_cons. simpl.
  case_decide; [by rewrite bool_decide_eq_true_2|by rewrite bool_decide_eq_false_2].
Qed.

Lemma occurrences_cons (c a : char) (w : str) :
  occurrences c (a :: w)
  = ((if bool_decide (a = c) then 1 else 0) + occurrences c w)%nat.
Proof.
  unfold occurrences. rewrite filter_cons.
  case_decide; [by rewrite bool_decide_eq_true_2|by rewrite bool_decide_eq_false_2].
Qed.

Lemma occurrences_remove_first (c x : char) (l : str) :
  x ∈ l →
  occurrences c l
  = ((if bool_decide (x = c) then 1 else 0)
     + occurrences c (list_remove_first x l))%nat.
Proof.
  induction l as [|y l IH]; intros Hin; [by apply elem_of_nil in Hin|].
  simpl. destruct (decide (x = y)) as [->|Hne].
  - apply occurrences_cons.
  - apply elem_of_cons in Hin as [?|Hin]; [done|].
    rewrite !occurrences_cons, (IH Hin). lia.
Qed.

Lemma yellows_marked (c : char) (g : str) (rs : list colour) (remaining : str) :
  (marked c g (yellows g rs remaining)
   ≤ marked c g rs + occurrences c remaining)%nat.
Proof.
  revert rs remaining.
  induction g as [|a g IH]; intros rs remaining; [cbn [yellows]; lia|].
  destruct rs as [|r rs]; [cbn [yellows]; lia|]. cbn [yellows].
  destruct (bool_decide (r = gray)) eqn:Hr; simpl.
  - apply bool_decide_eq_true in Hr as ->.
    destruct (bool_decide (a ∈ remaining)) eqn:Hin.
    + apply bool_decide_eq_true in Hin.
      rewrite !marked_cons, (occurrences_remove_first c a remaining Hin).
      specialize (IH rs (list_remove_first a remaining)).
      rewrite (bool_decide_eq_false_2 (a = c ∧ gray ≠ gray)) by (by intros [_ []]).
      destruct (decide (a = c)) as [->|Hne].
      * rewrite !bool_decide_eq_true_2 by naive_solver. lia.
      * rewrite (bool_decide_eq_false_2 (a = c ∧ _)) by (by intros [? _]). lia.
    + rewrite !marked_cons. specialize (IH rs remaining). lia.
  - rewrite !marked_cons. specialize (IH rs remaining). lia.
Qed.

Lemma greens_marked (c : char) (g t : str) :
  (marked c g (greens g t) + occurrences c (leftover g t)
   ≤ occurrences c t)%nat.
Proof.
  revert t. induction g as [|a g IH]; intros [|b t]; simpl;
    try (unfold marked, occurrences; simpl; lia).
  specialize (IH t). rewrite marked_cons, !occurrences_cons.
  destruct (decide (a = b)) as [->|Hne].
  - destruct (decide (b = c)) as [->|Hne].
    + rewrite !bool_decide_eq_true_2 by naive_solver. lia.
    + rewrite !bool_decide_eq_false_2 by (first [by intros [? _]|done]). lia.
  - rewrite occurrences_cons.
    rewrite (bool_decide_eq_false_2 (a = c ∧ _)) by (by intros [_ []]). lia.
Qed.

Lemma greens_length (g t : str) :
  length g = length t → length (greens g t) = length g.
Proof.
  revert t. induction g as [|a g IH]; intros [|b t] Hlen; simplify_eq/=; auto.
Qed.

Lemma yellows_length (g : str) (rs : list colour) (remaining : str) :
  length (yellows g rs remaining) = length rs.
Proof.
  revert rs remaining. induction g as [|a g IH]; intros [|r rs] remaining;
    simpl; try done.
  destruct (_ && _); simpl; by rewrite IH.
Qed.

Lemma greens_same (w : str) : greens w w = replicate (length w) green.
Proof.
  induction w as [|a w IH]; simpl; [done|]. rewrite decide_True by done.
  by rewrite IH.
Qed.

Lemma yellows_all_green (g : str) (n : nat) (remaining : str) :
  yellows g (replicate n green) remaining = replicate n green.
Proof.
  revert n remaining. induction g as [|a g IH]; intros [|n] remaining;
    simpl; try done.
  by rewrite IH.
Qed.

(** C3. For words that are five letters long once upper-cased,
    [compare_word] returns one classification per position of the guess, the
    one of the two-pass rule ([two_pass]: exact matches first, consuming the
    matched letters of the secret, then partial matches left to right against
    the remaining-letter multiset); no letter gets more green and yellow marks
    than it has occurrences in the secret; CHEAP against PEACH is yellow five
    times; a guess equal to the secret is green five times. *)
Theorem compare_word_two_pass `{StrOps} (guess target : str) :
  length (upper guess) = 5%nat →
  length (upper target) = 5%nat →
  ∃ res,
    compare_word guess target = Some res
    ∧ length res = 5%nat
    ∧ res = two_pass (upper guess) (upper target)
    ∧ (∀ c, (marked c (upper guess) res ≤ occurrences c (upper target))%nat)
    ∧ (upper guess = py "CHEAP" → upper target = py "PEACH" →
       res = replicate 5 yellow)
    ∧ (upper guess = upper target → res = replicate 5 green).
Proof.
  intros Hg Ht.
  rewrite compare_word_structural by lia.
  eexists; split; [reflexivity|].
  assert (length (upper guess) = length (upper target)) as Hlen by lia.
  repeat split.
  - by rewrite yellows_length, greens_length.
  - unfold two_pass. rewrite yellows_partial_pass by done. f_equal.
    rewrite (leftover_exact_split _ _ Hlen). multiset_solver.
  - intros c.
    pose proof (yellows_marked c (upper guess)
                  (greens (upper guess) (upper target))
                  (leftover (upper guess) (upper target))).
    pose proof (greens_marked c (upper guess) (upper target)). lia.
  - intros -> ->. reflexivity.
  - intros <-. by rewrite greens_same, yellows_all_green, Hg.
Qed.

(** "cheap" against "Peach", with the ASCII string methods. *)
Lemma compare_word_two_pass_witness :
  compare_word (H:=ascii_ops) (py "cheap") (py "Peach")
  = Some [yellow; yellow; yellow; yellow; yellow].
Proof.
  destruct (compare_word_two_pass (H:=ascii_ops) (py "cheap") (py "Peach"))
    as (res & Hres & _ & _ & _ & Hcheap & _); [reflexivity..|].
  rewrite Hres. f_equal. by apply Hcheap.
Defined.

(** ** [score_from] *)

Lemma score_from_cons (c : colour) (colours : list colour) :
  score_from (c :: colours)
  = match c with green => 10 | yellow => 5 | gray => 0 end + score_from colours.
Proof. reflexivity. Qed.

Lemma score_from_nonneg (colours : list colour) : 0 ≤ score_from colours.
Proof.
  induction colours as [|c colours IH]; [done|].
  rewrite score_from_cons. destruct c; lia.
Qed.

(** C9. [score_from] is 10 per green plus 5 per yellow (and nothing per
    gray), and it is 0 exactly when every entry is gray. *)
Theorem score_from_total (colours : list colour) :
  score_from colours
  = 10 * Z.of_nat (length (filter (λ c, c = green) colours))
    + 5 * Z.of_nat (length (filter (λ c, c = yellow) colours))
  ∧ (score_from colours = 0 ↔ Forall (λ c, c = gray) colours).
Proof.
  induction colours as [|c colours [IHsum IHzero]].
  - split; [done|]. split; [constructor|done].
  - pose proof (score_from_nonneg colours) as Hpos.
    rewrite score_from_cons, IHsum, !filter_cons. rewrite IHsum in IHzero, Hpos.
    split.
    + destruct c; repeat case_decide; simplify_eq; simpl length; lia.
    + rewrite Forall_cons, <- IHzero.
      destruct c;
        (split;
         [ intros ?; first [lia | split; [done|lia]]
         | intros [? ?]; simplify_eq; lia ]).
Qed.

(** ** Dictionaries *)

Lemma dict_get_alter {V} (f : V → V) (k k' : str) (d : list (str * V)) :
  dict_get k (dict_alter f k' d)
  = if decide (k = k') then f <$> dict_get k d else dict_get k d.
Proof.
  induction d as [|[k0 v] d IH]; simpl; [by case_decide|].
  repeat (case_decide; simplify_eq/=); try done.
Qed.

Lemma dict_keys_alter {V} (f : V → V) (k : str) (d : list (str * V)) :
  dict_keys (dict_alter f k d) = dict_keys d.
Proof.
  unfold dict_keys. induction d as [|[k0 v] d IH]; simpl; [done|].
  destruct (decide (k = k0)); simpl; [done|]. by f_equal.
Qed.

Lemma dict_get_None {V} (k : str) (d : list (str * V)) :
  dict_get k d = None ↔ k ∉ dict_keys d.
Proof.
  unfold dict_keys. induction d as [|[k0 v] d IH]; simpl.
  - split; [intros _; apply not_elem_of_nil|done].
  - rewrite not_elem_of_cons, <- IH.
    destruct (decide (k = k0)) as [->|Hne]; split; try done.
    + by intros [[] _].
    + by intros [_ ?].
Qed.

Lemma dict_get_is_Some {V} (k : str) (d : list (str * V)) :
  is_Some (dict_get k d) ↔ k ∈ dict_keys d.
Proof.
  rewrite <- not_eq_None_Some, dict_get_None.
  destruct (decide (k ∈ dict_keys d)); naive_solver.
Qed.

Lemma dict_set_fresh {V} (k : str) (v : V) (d : list (str * V)) :
  dict_get k d = None → dict_set k v d = d ++ [(k, v)].
Proof.
  induction d as [|[k0 v0] d IH]; simpl; [done|].
  destruct (decide (k = k0)); [done|]. intros Hd. by rewrite IH.
Qed.

Lemma registered_elem_of (uid : str) (bd : BotData) :
  registered uid bd = true ↔ uid ∈ dict_keys (players bd).
Proof.
  unfold registered. rewrite bool_decide_eq_true. apply dict_get_is_Some.
Qed.

(** ** The turn queue *)

Lemma advance_queue_empty (w : World) :
  queue (bot_data w) = [] → advance_queue w = ret w [].
Proof. unfold advance_queue. by intros ->. Qed.

Lemma advance_queue_cons (w : World) (first : str) (rest : list str) :
  queue (bot_data w) = first :: rest →
  world (advance_queue w)
  = set_bot (set_active true (set_queue (rest ++ [first]) (bot_data w))) w.
Proof.
  unfold advance_queue. intros ->. by destruct (dict_get _ _).
Qed.

Lemma advance_queue_raised (w : World) :
  Forall (λ uid, registered uid (bot_data w) = true) (queue (bot_data w)) →
  raised (advance_queue w) = None.
Proof.
  unfold advance_queue. destruct (queue (bot_data w)) as [|first rest] eqn:Hq;
    [done|].
  intros Hreg.
  assert (hd first (rest ++ [first]) ∈ first :: rest) as Hin.
  { destruct rest as [|second rest]; simpl; set_solver. }
  rewrite Forall_forall in Hreg. apply Hreg in Hin.
  apply bool_decide_eq_true in Hin as [p Hp]. by rewrite Hp.
Qed.

Lemma advance_times_rotate (n : nat) (w : World) :
  (n ≤ length (queue (bot_data w)))%nat →
  Forall (λ uid, registered uid (bot_data w) = true) (queue (bot_data w)) →
  let o := advance_times n w in
  raised o = None
  ∧ queue (bot_data (world o))
    = drop n (queue (bot_data w)) ++ take n (queue (bot_data w))
  ∧ players (bot_data (world o)) = players (bot_data w)
  ∧ files (world o) = files w.
Proof.
  revert w. induction n as [|n IH]; intros w Hn Hreg; simpl.
  - by rewrite app_nil_r.
  - destruct (queue (bot_data w)) as [|first rest] eqn:Hq; [simpl in Hn; lia|].
    pose proof (advance_queue_raised w) as Hr. rewrite Hq in Hr.
    specialize (Hr Hreg).
    pose proof (advance_queue_cons w first rest Hq) as Hw.
    unfold and_then. rewrite Hr. simpl.
    destruct (IH (world (advance_queue w))) as (IH1 & IH2 & IH3 & IH4).
    + rewrite Hw. simpl. rewrite length_app. simpl in *. lia.
    + rewrite Hw. simpl. apply Forall_app. split.
      * by apply Forall_cons in Hreg as [_ ?].
      * apply Forall_cons in Hreg as [? _]. by apply Forall_singleton.
    + rewrite IH1, IH2, IH3, IH4, Hw. simpl. repeat split.
      simpl in Hn.
      rewrite drop_app_le, take_app_le by lia.
      by rewrite <- (assoc_L (++)), <- cons_middle.
Qed.

(** C8. [advance_queue] moves the head of the queue to its tail; called as
    many times as the queue (of distinct registered ids) is long it brings
    back the original order without raising; on an empty queue it returns at
    once, changes nothing and does not raise. *)
Theorem advance_queue_cyclic (w : World) :
  (queue (bot_data w) = [] → advance_queue w = ret w [])
  ∧ (∀ first rest, queue (bot_data w) = first :: rest →
       queue (bot_data (world (advance_queue w))) = rest ++ [first])
  ∧ (NoDup (queue (bot_data w)) →
     Forall (λ uid, registered uid (bot_data w) = true) (queue (bot_data w)) →
     let o := advance_times (length (queue (bot_data w))) w in
     raised o = None
     ∧ queue (bot_data (world o)) = queue (bot_data w)
     ∧ players (bot_data (world o)) = players (bot_data w)).
Proof.
  split; [apply advance_queue_empty|]. split.
  - intros first rest Hq. by rewrite (advance_queue_cons w first rest Hq).
  - intros _ Hreg.
    destruct (advance_times_rotate (length (queue (bot_data w))) w)
      as (H1 & H2 & H3 & _); [done|done|].
    repeat split; [done| |done].
    by rewrite H2, drop_all, firstn_all.
Qed.

(** ** The shuffle *)

Lemma swap_perm (i j : nat) (x : list str) : swap i j x ≡ₚ x.
Proof.
  unfold swap. destruct (x !! i) as [a|] eqn:Hi; [|done].
  destruct (x !! j) as [b|] eqn:Hj; [|done].
  by apply Permutation_insert_swap.
Qed.

Lemma shuffle_from_perm (i : nat) (draws : list nat) (x : list str) :
  shuffle_from i draws x ≡ₚ x.
Proof.
  revert draws x. induction i as [|i IH]; intros draws x; simpl; [done|].
  by rewrite IH, swap_perm.
Qed.

Lemma shuffle_perm (draws : list nat) (x : list str) : shuffle draws x ≡ₚ x.
Proof. apply shuffle_from_perm. Qed.

(** ** Handlers that only read *)

Lemma menu_ret (u : User) (w : World) : ∃ evs, menu u w = ret w evs.
Proof. unfold menu. repeat case_match; eauto. Qed.

Lemma and_then_menu_world (o : Outcome) (u : User) :
  world (and_then o (menu u)) = world o.
Proof.
  unfold and_then. destruct (raised o); [done|].
  destruct (menu_ret u (world o)) as [evs ->]. done.
Qed.

Lemma and_then_ret_world (w : World) (evs : list Event) (k : World → Outcome) :
  world (and_then (ret w evs) k) = world (k w).
Proof. done. Qed.

Lemma notify_current_player_world (w : World) :
  world (notify_current_player w) = w.
Proof. unfold notify_current_player. by repeat case_match. Qed.

Lemma score_cmd_world (u : User) (w : World) : world (score_cmd u w) = w.
Proof. unfold score_cmd. by case_match. Qed.

Lemma advance_queue_frame (w : World) :
  files (world (advance_queue w)) = files w
  ∧ user_data (world (advance_queue w)) = user_data w
  ∧ players (bot_data (world (advance_queue w))) = players (bot_data w)
  ∧ admin_id (bot_data (world (advance_queue w))) = admin_id (bot_data w).
Proof. unfold advance_queue. by repeat case_match. Qed.

(** ** The registry and the queue in reachable worlds *)

Lemma session_inv_ext (bd bd' : BotData) :
  dict_keys (players bd') = dict_keys (players bd) →
  queue bd' = queue bd →
  state_game_active bd' = state_game_active bd →
  session_inv bd → session_inv bd'.
Proof. unfold session_inv. by intros -> -> ->. Qed.

Lemma session_inv_advance (w : World) :
  session_inv (bot_data w) → session_inv (bot_data (world (advance_queue w))).
Proof.
  intros Hinv.
  destruct (queue (bot_data w)) as [|first rest] eqn:Hq.
  - by rewrite advance_queue_empty.
  - destruct Hinv as (Hnd & Hperm & _). rewrite Hq in Hperm.
    rewrite (advance_queue_cons w first rest Hq). unfold session_inv. simpl.
    split; [done|]. split; [|done].
    by rewrite <- Hperm, <- Permutation_cons_append.
Qed.

Lemma session_inv_join (u : User) (now : str) (w : World) :
  session_inv (bot_data w) → session_inv (bot_data (world (join u now w))).
Proof.
  intros Hinv0. pose proof Hinv0 as (Hnd & Hperm & Hjoin). unfold join.
  case_decide; [done|].
  destruct (registered _ _) eqn:Hreg; [done|]. simpl.
  apply bool_decide_eq_false in Hreg.
  rewrite <- not_eq_None_Some in Hreg. apply dec_stable in Hreg.
  rewrite dict_set_fresh by done.
  unfold session_inv, dict_keys. simpl. rewrite fmap_app. simpl.
  split; [|split].
  - apply NoDup_app. split; [done|]. split; [|apply NoDup_singleton].
    intros x Hx ->%list_elem_of_singleton. by apply dict_get_None in Hreg.
  - by rewrite Hperm.
  - intros Hact. by rewrite Hjoin.
Qed.

Lemma session_inv_begin (u : User) (draws : list nat) (w : World) :
  session_inv (bot_data w) → session_inv (bot_data (world (begin u draws w))).
Proof.
  intros Hinv0. pose proof Hinv0 as (Hnd & Hperm & Hjoin).
  unfold begin, admin_only.
  case_decide; [done|].
  destruct (dict_keys (players (bot_data w))) as [|k keys] eqn:Hkeys; [done|].
  assert (session_inv
            (set_active true (set_queue (shuffle draws (k :: keys)) (bot_data w))))
    as Hinv.
  { unfold session_inv. simpl. rewrite Hkeys.
    split; [done|]. split; [apply shuffle_perm|done]. }
  repeat case_match; simpl; try done.
  all: by rewrite notify_current_player_world.
Qed.

Lemma session_inv_reset (u : User) (w : World) :
  session_inv (bot_data w) → session_inv (bot_data (world (reset_game u w))).
Proof.
  intros Hinv. unfold reset_game, admin_only. case_decide; [done|].
  unfold session_inv. simpl. split; [constructor|done].
Qed.

Lemma session_inv_steal (u : User) (data : Data) (dice : Z) (w : World) :
  session_inv (bot_data w) →
  session_inv (bot_data (world (steal_handler u data dice w))).
Proof.
  intros Hinv. unfold steal_handler, steal_target_kb, active_player.
  repeat case_match; simpl; try done.
  all: rewrite and_then_menu_world, and_then_ret_world.
  all: apply session_inv_advance; simpl.
  all: apply (session_inv_ext (bot_data w)); simpl; try done.
  all: by rewrite !dict_keys_alter.
Qed.

(** ** Location states *)

Lemma find_dyn_id (b : Z) (l : list Dyn) (d : Dyn) :
  find_dyn b l = Some d → dyn_id d = b.
Proof.
  induction l as [|x l IH]; simpl; [done|].
  case_decide; [by intros [= <-]|done].
Qed.

Lemma find_dyn_fmap (b : Z) (g : Dyn → Dyn) (l : list Dyn) :
  (∀ x, dyn_id (g x) = dyn_id x) →
  find_dyn b (g <$> l) = g <$> find_dyn b l.
Proof.
  intros Hid. induction l as [|x l IH]; simpl; [done|].
  rewrite Hid. by case_decide.
Qed.

Lemma load_save_state (state : State) (fs : Files) :
  load_state (save_state state fs) = state.
Proof. done. Qed.

Section Guessing.
Context `{ops : StrOps} (WORDS : list str).

(** The entries rewritten by a recorded attempt keep their id. *)
Lemma recorded_keeps_id (b_id : Z) (dyn' : option Dyn) :
  (∀ d', dyn' = Some d' → dyn_id d' = b_id) →
  ∀ x, dyn_id (if decide (dyn_id x ≠ b_id) then x else default x dyn')
       = dyn_id x.
Proof.
  intros Hid x. case_decide as Hx; [done|].
  destruct dyn' as [d'|]; simpl; [|done].
  rewrite (Hid d' eq_refl). by destruct (decide (dyn_id x = b_id)).
Qed.

(** A handler that got past [active_player] and the turn check. *)
Lemma guess_guards (u : User) (text now1 now2 : str) (w : World) (b_id : Z) :
  user_data w !! tg_id u = Some b_id →
  registered (str_of_int (tg_id u)) (bot_data w) = true →
  state_game_active (bot_data w) = true →
  head (queue (bot_data w)) = Some (str_of_int (tg_id u)) →
  length (upper (strip text)) = 5%nat →
  lower (upper (strip text)) ∈ WORDS →
  ∀ building, find_building b_id (config (files w)) = Some building →
  let w1 := set_user_data (delete (tg_id u) (user_data w)) w in
  let word := upper (strip text) in
  let dyn := location_state b_id (files w) in
  handle_guess_word WORDS u text now1 now2 w
  = if is_duplicate dyn word then ret w1 [Reply DuplicateGuess]
    else if closed dyn then ret w1 [Reply LocationClosed]
    else
      match compare_word word (target_word building) with
      | None => raise IndexError w1 []
      | Some colours =>
          let points := score_from colours in
          match dict_get (str_of_int (tg_id u)) (players (bot_data w)) with
          | None => raise KeyError w1 []
          | Some player =>
              let ps :=
                dict_alter (λ p, touch now1 (add_score points p))
                  (str_of_int (tg_id u)) (players (bot_data w)) in
              let attempt :=
                {| attempt_user_id := str_of_int (tg_id u);
                   attempt_username := username player;
                   attempt_time := now2;
                   attempt_word := word |} in
              let solved :=
                bool_decide (upper word = upper (target_word building)) in
              let dyn' :=
                (λ d, {| dyn_id := dyn_id d; last_attempt := Some attempt;
                         is_closed := if solved then true else is_closed d |})
                <$> dyn in
              let blds' :=
                (λ d, if decide (dyn_id d ≠ b_id) then d else default d dyn')
                <$> default [] (buildings (load_state (files w))) in
              let state' :=
                {| buildings := Some blds';
                   state_queue := state_queue (load_state (files w));
                   game_state := game_state (load_state (files w)) |} in
              let w2 :=
                set_files (save_state state' (files w))
                  (set_bot (set_players ps (bot_data w)) w1) in
              and_then
                (and_then
                   (ret w2 [Reply (if solved then Solved colours
                                   else Scored colours points)])
                   advance_queue)
                (menu u)
          end
      end.
Proof.
  intros Hpend Hreg Hact Hhead Hlen Hdict building Hb.
  unfold handle_guess_word, active_player. rewrite Hreg, Hact, Hpend. simpl.
  destruct (queue (bot_data w)) as [|current rest]; [done|].
  simpl in Hhead. injection Hhead as ->.
  rewrite decide_False by (by intros []).
  rewrite decide_False by (by intros []).
  rewrite decide_False by (by intros []).
  by rewrite Hb.
Qed.

(** Unless every guard is passed, the handler leaves the session and the
    files as they are. *)
Lemma guess_frame_or_guards (u : User) (text now1 now2 : str) (w : World) :
  let o := handle_guess_word WORDS u text now1 now2 w in
  (bot_data (world o) = bot_data w ∧ files (world o) = files w)
  ∨ (∃ b_id building,
       user_data w !! tg_id u = Some b_id
       ∧ registered (str_of_int (tg_id u)) (bot_data w) = true
       ∧ state_game_active (bot_data w) = true
       ∧ head (queue (bot_data w)) = Some (str_of_int (tg_id u))
       ∧ length (upper (strip text)) = 5%nat
       ∧ lower (upper (strip text)) ∈ WORDS
       ∧ find_building b_id (config (files w)) = Some building).
Proof.
  unfold handle_guess_word, active_player.
  destruct (registered _ _) eqn:Hreg; [|by left].
  destruct (state_game_active _) eqn:Hact; [|by left]. simpl.
  destruct (user_data w !! tg_id u) as [b_id|] eqn:Hpend; [|by left].
  destruct (queue (bot_data w)) as [|current rest] eqn:Hq; [by left|].
  case_decide as Hturn; [by left|].
  case_decide as Hlen; [by left|].
  case_decide as Hdict; [by left|].
  destruct (find_building _ _) as [building|] eqn:Hb; [|by left].
  right. exists b_id, building. simpl in Hb. repeat split; try done.
  simpl. by rewrite Hturn.
Qed.

Lemma is_duplicate_true (d : Dyn) (last : Attempt) (word : str) :
  last_attempt d = Some last →
  upper (attempt_word last) = word →
  is_duplicate (Some d) word = true.
Proof.
  intros Hlast Hw. unfold is_duplicate. simpl. rewrite Hlast.
  by apply bool_decide_eq_true.
Qed.

Lemma is_duplicate_false (d : Dyn) (word : str) :
  (∀ last, last_attempt d = Some last → upper (attempt_word last) ≠ word) →
  is_duplicate (Some d) word = false.
Proof.
  intros Hne. unfold is_duplicate. simpl.
  destruct (last_attempt d) as [last|]; [|done].
  apply bool_decide_eq_false. by apply Hne.
Qed.

(** C2. A guess whose word equals, case-insensitively, the word of the last
    attempt recorded at the chosen location changes neither the session
    (queue, scores, status) nor the files (attempt record, closed flag); sent
    by the turn holder with a five-letter dictionary word at a configured
    location it is answered with [DuplicateGuess]. *)
Theorem duplicate_guess_rejected (u : User) (text now1 now2 : str) (w : World)
    (b_id : Z) (d : Dyn) (last : Attempt) :
  user_data w !! tg_id u = Some b_id →
  location_state b_id (files w) = Some d →
  last_attempt d = Some last →
  upper (attempt_word last) = upper (strip text) →
  let o := handle_guess_word WORDS u text now1 now2 w in
  bot_data (world o) = bot_data w
  ∧ files (world o) = files w
  ∧ (registered (str_of_int (tg_id u)) (bot_data w) = true →
     state_game_active (bot_data w) = true →
     head (queue (bot_data w)) = Some (str_of_int (tg_id u)) →
     length (upper (strip text)) = 5%nat →
     lower (upper (strip text)) ∈ WORDS →
     is_Some (find_building b_id (config (files w))) →
     o = ret (set_user_data (delete (tg_id u) (user_data w)) w)
           [Reply DuplicateGuess]).
Proof.
  intros Hpend Hloc Hlast Hword o.
  assert (∀ building,
            registered (str_of_int (tg_id u)) (bot_data w) = true →
            state_game_active (bot_data w) = true →
            head (queue (bot_data w)) = Some (str_of_int (tg_id u)) →
            length (upper (strip text)) = 5%nat →
            lower (upper (strip text)) ∈ WORDS →
            find_building b_id (config (files w)) = Some building →
            o = ret (set_user_data (delete (tg_id u) (user_data w)) w)
                  [Reply DuplicateGuess]) as Hrej.
  { intros building Hreg Hact Hhead Hlen Hdict Hb. unfold o.
    rewrite (guess_guards u text now1 now2 w b_id Hpend Hreg Hact Hhead Hlen
               Hdict building Hb).
    simpl. by rewrite Hloc, (is_duplicate_true d last). }
  destruct (guess_frame_or_guards u text now1 now2 w)
    as [[Hbot Hfiles]|(b' & building & Hpend' & Hreg & Hact & Hhead & Hlen
                        & Hdict & Hb)].
  - repeat split; try done.
    intros Hreg Hact Hhead Hlen Hdict [building Hb]. by eapply Hrej.
  - rewrite Hpend in Hpend'. injection Hpend' as <-.
    by rewrite (Hrej building).
Qed.

(** C10. At a closed location the duplicate check comes first: a guess that
    repeats, case-insensitively, the last recorded word (the word that closed
    the location, for one) is answered with [DuplicateGuess], any other guess
    with [LocationClosed]; either way the session and the files stay as they
    are. *)
Theorem duplicate_check_precedes_closed (u : User) (text now1 now2 : str)
    (w : World) (b_id : Z) (d : Dyn) :
  user_data w !! tg_id u = Some b_id →
  location_state b_id (files w) = Some d →
  is_closed d = true →
  registered (str_of_int (tg_id u)) (bot_data w) = true →
  state_game_active (bot_data w) = true →
  head (queue (bot_data w)) = Some (str_of_int (tg_id u)) →
  length (upper (strip text)) = 5%nat →
  lower (upper (strip text)) ∈ WORDS →
  is_Some (find_building b_id (config (files w))) →
  let o := handle_guess_word WORDS u text now1 now2 w in
  let w1 := set_user_data (delete (tg_id u) (user_data w)) w in
  ((∃ last, last_attempt d = Some last
            ∧ upper (attempt_word last) = upper (strip text)) →
   o = ret w1 [Reply DuplicateGuess])
  ∧ ((∀ last, last_attempt d = Some last →
              upper (attempt_word last) ≠ upper (strip text)) →
     o = ret w1 [Reply LocationClosed])
  ∧ bot_data (world o) = bot_data w
  ∧ files (world o) = files w.
Proof.
  intros Hpend Hloc Hclosed Hreg Hact Hhead Hlen Hdict [building Hb] o w1.
  unfold o.
  rewrite (guess_guards u text now1 now2 w b_id Hpend Hreg Hact Hhead Hlen
             Hdict building Hb).
  simpl. rewrite Hloc. simpl. rewrite Hclosed.
  split; [|split].
  - intros (last & Hlast & Hword). by rewrite (is_duplicate_true d last).
  - intros Hne. by rewrite is_duplicate_false.
  - by destruct (is_duplicate _ _).
Qed.
End Guessing.

(** ** [begin] by the administrator *)

Lemma begin_admin (u : User) (draws : list nat) (w : World)
    (k : str) (keys : list str) :
  tg_id u = admin_id (bot_data w) →
  dict_keys (players (bot_data w)) = k :: keys →
  bot_data (world (begin u draws w))
  = set_active true (set_queue (shuffle draws (k :: keys)) (bot_data w))
  ∧ files (world (begin u draws w))
    = save_state
        {| buildings :=
             Some match buildings (load_state (files w)) with
                  | None | Some [] => fresh_dyn <$> config (files w)
                  | Some l => l
                  end;
           state_queue := Some (shuffle draws (k :: keys));
           game_state := Some (py "active") |} (files w).
Proof.
  intros Hadm Hkeys. unfold begin, admin_only.
  rewrite decide_False by (by intros []). rewrite Hkeys.
  repeat case_match; simpl; rewrite ?notify_current_player_world; done.
Qed.

Lemma begin_refused (u : User) (draws : list nat) (w : World) :
  tg_id u ≠ admin_id (bot_data w) ∨ players (bot_data w) = [] →
  world (begin u draws w) = w.
Proof.
  unfold begin, admin_only. intros [Hadm| ->].
  - by rewrite decide_True.
  - by case_decide.
Qed.

(** ** Every step keeps the registry and the queue together *)

Lemma reset_marker_frame (u : User) (data : Data) (w : World) :
  bot_data (reset_marker u data w) = bot_data w
  ∧ files (reset_marker u data w) = files w.
Proof. unfold reset_marker. by repeat case_match. Qed.

Lemma menu_world (u : User) (w : World) : world (menu u w) = w.
Proof. by destruct (menu_ret u w) as [evs ->]. Qed.

Lemma player_or_admin_display (u : User) (w : World) :
  world (player_or_admin u w (λ w, ret w [Reply Display])) = w.
Proof. unfold player_or_admin, active_player. by repeat case_match. Qed.

Lemma session_inv_callback (u : User) (data : Data) (dice : Z) (w : World) :
  session_inv (bot_data w) →
  session_inv (bot_data (world (callback_handler u data dice w))).
Proof.
  intros Hinv. unfold callback_handler.
  destruct (reset_marker_frame u data w) as [Hbot _].
  rewrite <- Hbot in Hinv.
  destruct data; simpl;
    rewrite ?menu_world, ?score_cmd_world, ?player_or_admin_display; try done.
  - by apply session_inv_steal.
  - by apply session_inv_steal.
  - by apply session_inv_reset.
Qed.

Section Steps.
Context `{ops : StrOps} (WORDS : list str).

Lemma session_inv_guess (u : User) (text now1 now2 : str) (w : World) :
  session_inv (bot_data w) →
  session_inv (bot_data (world (handle_guess_word WORDS u text now1 now2 w))).
Proof.
  intros Hinv.
  destruct (guess_frame_or_guards WORDS u text now1 now2 w)
    as [[Hbot _]|(b_id & building & Hpend & Hreg & Hact & Hhead & Hlen
                   & Hdict & Hb)].
  - by rewrite Hbot.
  - rewrite (guess_guards WORDS u text now1 now2 w b_id Hpend Hreg Hact Hhead
               Hlen Hdict building Hb).
    simpl. repeat case_match; simpl; try done.
    all: rewrite and_then_menu_world, and_then_ret_world.
    all: apply session_inv_advance; simpl.
    all: apply (session_inv_ext (bot_data w)); simpl; try done.
    all: by rewrite dict_keys_alter.
Qed.

Lemma session_inv_step (a : Action) (w : World) :
  session_inv (bot_data w) → session_inv (bot_data (world (step WORDS a w))).
Proof.
  intros Hinv. destruct a; simpl.
  - by apply session_inv_join.
  - by apply session_inv_begin.
  - by rewrite menu_world.
  - by rewrite score_cmd_world.
  - by apply session_inv_guess.
  - by apply session_inv_callback.
Qed.

Lemma reachable_session_inv (w : World) :
  reachable WORDS w → session_inv (bot_data w).
Proof.
  induction 1 as [ADMIN_ID fs|a w Hw IH Ha].
  - unfold session_inv. simpl. split; [constructor|done].
  - by apply session_inv_step.
Qed.

(** C6, as the code has it. [join] of a user who is not the administrator
    and not yet registered adds the player with score 0 at the end of the
    registry and appends the id to the turn queue, leaving the status and the
    files alone; so before activation the queue of a reachable world lists
    the registered ids in join order, and [begin] by the administrator
    replaces it with a rearrangement of all registered ids and activates the
    game. *)
Theorem join_appends_to_queue (u : User) (now : str) (w : World) :
  tg_id u ≠ admin_id (bot_data w) →
  registered (str_of_int (tg_id u)) (bot_data w) = false →
  let uid := str_of_int (tg_id u) in
  let w' := world (join u now w) in
  players (bot_data w')
  = players (bot_data w)
    ++ [(uid, {| username := display_name u; score := 0; last_active := now |})]
  ∧ queue (bot_data w') = queue (bot_data w) ++ [uid]
  ∧ state_game_active (bot_data w') = state_game_active (bot_data w)
  ∧ files w' = files w
  ∧ (reachable WORDS w → state_game_active (bot_data w) = false →
     queue (bot_data w) = dict_keys (players (bot_data w))
     ∧ queue (bot_data w') = dict_keys (players (bot_data w')))
  ∧ (∀ admin draws,
       tg_id admin = admin_id (bot_data w') →
       let w'' := world (begin admin draws w') in
       queue (bot_data w'') ≡ₚ dict_keys (players (bot_data w'))
       ∧ players (bot_data w'') = players (bot_data w')
       ∧ state_game_active (bot_data w'') = true).
Proof.
  intros Hadmin Hreg uid w'.
  assert (dict_get uid (players (bot_data w)) = None) as Hfresh.
  { apply bool_decide_eq_false in Hreg.
    destruct (dict_get uid (players (bot_data w))) eqn:Hget; [|done].
    destruct Hreg. unfold uid in Hget. rewrite Hget. by eexists. }
  assert (w' = set_bot
                 (set_queue (queue (bot_data w) ++ [uid])
                    (set_players
                       (players (bot_data w)
                        ++ [(uid, {| username := display_name u; score := 0;
                                     last_active := now |})])
                       (bot_data w))) w) as Hw'.
  { unfold w', join, uid in *. rewrite decide_False by done. rewrite Hreg.
    simpl. by rewrite dict_set_fresh. }
  rewrite Hw'. simpl.
  split; [done|]. split; [done|]. split; [done|]. split; [done|]. split.
  - intros Hreach Hact.
    destruct (reachable_session_inv w Hreach) as (_ & _ & Hq).
    rewrite (Hq Hact). split; [done|]. unfold dict_keys. by rewrite fmap_app.
  - intros admin draws Hadm.
    set (wj := set_bot _ w) in *.
    destruct (dict_keys (players (bot_data wj))) as [|k keys] eqn:Hkeys.
    { unfold dict_keys in Hkeys. simpl in Hkeys. rewrite fmap_app in Hkeys.
      by destruct ((players (bot_data w)).*1). }
    destruct (begin_admin admin draws wj k keys Hadm Hkeys) as [-> _].
    simpl. split; [|done]. unfold dict_keys in *. simpl in Hkeys.
    rewrite Hkeys. apply shuffle_perm.
Qed.
End Steps.

(** ** Robbery *)

Lemma steal_resolved (u : User) (target_id : str) (dice : Z) (w : World)
    (thief victim : Player) :
  state_game_active (bot_data w) = true →
  dict_get (str_of_int (tg_id u)) (players (bot_data w)) = Some thief →
  dict_get target_id (players (bot_data w)) = Some victim →
  let uid := str_of_int (tg_id u) in
  let ps := players (bot_data w) in
  let o := steal_handler u (DStealAt target_id) dice w in
  players (bot_data (world o))
  = (if bool_decide (5 ≤ dice)
     then dict_alter (add_score (-10)) target_id (dict_alter (add_score 10) uid ps)
     else dict_alter (add_score 2) target_id (dict_alter (add_score (-2)) uid ps))
  ∧ files (world o) = files w.
Proof.
  intros Hact Hthief Hvictim uid ps o. subst uid ps o.
  unfold steal_handler, active_player.
  assert (registered (str_of_int (tg_id u)) (bot_data w) = true) as ->.
  { apply bool_decide_eq_true. rewrite Hthief. by eexists. }
  rewrite Hact. simpl. rewrite Hthief, Hvictim.
  rewrite and_then_menu_world, and_then_ret_world.
  match goal with
  | |- context [advance_queue ?w1] =>
      destruct (advance_queue_frame w1) as (Hf & _ & Hp & _)
  end.
  by rewrite Hf, Hp.
Qed.

(** C7. The die is one of the six faces. On 5 or 6 the thief gains exactly 10
    and the victim loses exactly 10; on 1 to 4 the thief loses exactly 2 and
    the victim gains exactly 2; the two changes always add up to 0, nothing
    floors the scores (they are integers of either sign), and no other player
    is touched. Thief and victim are two registered players. *)
Theorem steal_transfers_points (u : User) (target_id : str) (dice : Z)
    (w : World) (thief victim : Player) :
  dice ∈ dice_faces →
  state_game_active (bot_data w) = true →
  dict_get (str_of_int (tg_id u)) (players (bot_data w)) = Some thief →
  dict_get target_id (players (bot_data w)) = Some victim →
  target_id ≠ str_of_int (tg_id u) →
  let uid := str_of_int (tg_id u) in
  let ps' :=
    players (bot_data (world (steal_handler u (DStealAt target_id) dice w))) in
  ∃ thief' victim',
    dict_get uid ps' = Some thief'
    ∧ dict_get target_id ps' = Some victim'
    ∧ (5 ≤ dice →
       score thief' = score thief + 10 ∧ score victim' = score victim - 10)
    ∧ (dice < 5 →
       score thief' = score thief - 2 ∧ score victim' = score victim + 2)
    ∧ (score thief' - score thief) + (score victim' - score victim) = 0
    ∧ (∀ other, other ≠ uid → other ≠ target_id →
         dict_get other ps' = dict_get other (players (bot_data w))).
Proof.
  intros Hdice Hact Hthief Hvictim Hne uid ps'. subst uid ps'.
  destruct (steal_resolved u target_id dice w thief victim Hact Hthief Hvictim)
    as [Hps _].
  rewrite Hps. clear Hps.
  assert (str_of_int (tg_id u) ≠ target_id) as Hne' by done.
  destruct (bool_decide (5 ≤ dice)) eqn:Hd;
    [apply bool_decide_eq_true in Hd | apply bool_decide_eq_false in Hd].
  all: eexists _, _; rewrite !dict_get_alter.
  all: rewrite (decide_False (P:=str_of_int (tg_id u) = target_id)),
         (decide_False (P:=target_id = str_of_int (tg_id u))),
         (decide_True (P:=str_of_int (tg_id u) = str_of_int (tg_id u))),
         (decide_True (P:=target_id = target_id)) by done.
  all: rewrite Hthief, Hvictim; simpl.
  all: split; [done|]; split; [done|].
  all: split; [intros ?; simpl; lia|]; split; [intros ?; simpl; lia|].
  all: split; [simpl; lia|].
  all: intros other Ho1 Ho2; rewrite !dict_get_alter; by rewrite !decide_False.
Qed.

(** ** The closed flag *)

Lemma fresh_dyn_open (b : Z) (cfg : list Building) (d : Dyn) :
  find_dyn b (fresh_dyn <$> cfg) = Some d →
  is_closed d = false ∧ last_attempt d = None.
Proof.
  induction cfg as [|x cfg IH]; simpl; [done|].
  case_decide; [by intros [= <-]|done].
Qed.

Lemma join_files (u : User) (now : str) (w : World) :
  files (world (join u now w)) = files w.
Proof. unfold join. by repeat case_match. Qed.

Lemma steal_files (u : User) (data : Data) (dice : Z) (w : World) :
  files (world (steal_handler u data dice w)) = files w.
Proof.
  unfold steal_handler, steal_target_kb, active_player.
  repeat case_match; simpl; try done.
  all: rewrite and_then_menu_world, and_then_ret_world.
  all: match goal with
       | |- context [advance_queue ?w1] =>
           by destruct (advance_queue_frame w1) as (-> & _)
       end.
Qed.

Lemma reset_refused (u : User) (w : World) :
  tg_id u ≠ admin_id (bot_data w) → world (reset_game u w) = w.
Proof. intros Hadm. unfold reset_game, admin_only. by rewrite decide_True. Qed.

Section Closing.
Context `{ops : StrOps} (WORDS : list str).

(** What the handler answers at a closed location once the guards are
    passed. *)
Lemma closed_guess_answer (u : User) (text now1 now2 : str) (w : World)
    (b_id : Z) (d : Dyn) :
  user_data w !! tg_id u = Some b_id →
  location_state b_id (files w) = Some d →
  is_closed d = true →
  registered (str_of_int (tg_id u)) (bot_data w) = true →
  state_game_active (bot_data w) = true →
  head (queue (bot_data w)) = Some (str_of_int (tg_id u)) →
  length (upper (strip text)) = 5%nat →
  lower (upper (strip text)) ∈ WORDS →
  is_Some (find_building b_id (config (files w))) →
  handle_guess_word WORDS u text now1 now2 w
  = ret (set_user_data (delete (tg_id u) (user_data w)) w)
      [Reply (if is_duplicate (Some d) (upper (strip text))
              then DuplicateGuess else LocationClosed)].
Proof.
  intros Hpend Hloc Hclosed Hreg Hact Hhead Hlen Hdict [building Hb].
  rewrite (guess_guards WORDS u text now1 now2 w b_id Hpend Hreg Hact Hhead
             Hlen Hdict building Hb).
  simpl. rewrite Hloc. simpl. rewrite Hclosed.
  by destruct (is_duplicate _ _).
Qed.

Lemma closed_guess_frame (u : User) (text now1 now2 : str) (w : World)
    (b_id : Z) (d : Dyn) :
  user_data w !! tg_id u = Some b_id →
  location_state b_id (files w) = Some d →
  is_closed d = true →
  let o := handle_guess_word WORDS u text now1 now2 w in
  bot_data (world o) = bot_data w ∧ files (world o) = files w.
Proof.
  intros Hpend Hloc Hclosed o.
  destruct (guess_frame_or_guards WORDS u text now1 now2 w)
    as [?|(b' & building & Hpend' & Hreg & Hact & Hhead & Hlen & Hdict & Hb)];
    [done|].
  rewrite Hpend in Hpend'. injection Hpend' as <-.
  unfold o.
  by rewrite (closed_guess_answer u text now1 now2 w b_id d).
Qed.

(** What a recorded attempt leaves in the file. *)
Lemma guess_recorded (u : User) (text now1 now2 : str) (w : World)
    (b_id : Z) (d : Dyn) (building : Building) (player : Player) :
  user_data w !! tg_id u = Some b_id →
  location_state b_id (files w) = Some d →
  is_closed d = false →
  is_duplicate (Some d) (upper (strip text)) = false →
  dict_get (str_of_int (tg_id u)) (players (bot_data w)) = Some player →
  state_game_active (bot_data w) = true →
  head (queue (bot_data w)) = Some (str_of_int (tg_id u)) →
  length (upper (strip text)) = 5%nat →
  lower (upper (strip text)) ∈ WORDS →
  find_building b_id (config (files w)) = Some building →
  is_Some (compare_word (upper (strip text)) (target_word building)) →
  location_state b_id
    (files (world (handle_guess_word WORDS u text now1 now2 w)))
  = Some {| dyn_id := dyn_id d;
            last_attempt :=
              Some {| attempt_user_id := str_of_int (tg_id u);
                      attempt_username := username player;
                      attempt_time := now2;
                      attempt_word := upper (strip text) |};
            is_closed :=
              bool_decide (upper (upper (strip text))
                           = upper (target_word building)) |}.
Proof.
  intros Hpend Hloc Hopen Hnodup Hplayer Hact Hhead Hlen Hdict Hb [colours Hc].
  assert (registered (str_of_int (tg_id u)) (bot_data w) = true) as Hreg.
  { apply bool_decide_eq_true. rewrite Hplayer. by eexists. }
  rewrite (guess_guards WORDS u text now1 now2 w b_id Hpend Hreg Hact Hhead
             Hlen Hdict building Hb).
  simpl. rewrite Hloc, Hnodup. simpl. rewrite Hopen, Hc, Hplayer.
  rewrite and_then_menu_world, and_then_ret_world.
  match goal with
  | |- context [advance_queue ?w1] =>
      destruct (advance_queue_frame w1) as (-> & _)
  end.
  unfold location_state in *. simpl.
  pose proof (find_dyn_id _ _ _ Hloc) as Hid.
  rewrite find_dyn_fmap.
  - rewrite Hloc. simpl. rewrite decide_False by (by intros []).
    by destruct (bool_decide _).
  - intros x. case_decide; [done|]. simpl.
    destruct (decide (dyn_id x = b_id)); congruence.
Qed.

Lemma guess_keeps_closed (u : User) (text now1 now2 : str) (w : World)
    (b : Z) (d : Dyn) :
  location_state b (files w) = Some d →
  is_closed d = true →
  location_state b (files (world (handle_guess_word WORDS u text now1 now2 w)))
  = Some d.
Proof.
  intros Hloc Hclosed.
  destruct (guess_frame_or_guards WORDS u text now1 now2 w)
    as [[_ ->]|(b_id & building & Hpend & Hreg & Hact & Hhead & Hlen & Hdict
                 & Hb)]; [done|].
  destruct (decide (b_id = b)) as [->|Hne].
  { by destruct (closed_guess_frame u text now1 now2 w b d) as [_ ->]. }
  rewrite (guess_guards WORDS u text now1 now2 w b_id Hpend Hreg Hact Hhead
             Hlen Hdict building Hb).
  simpl. repeat case_match; simpl; try done.
  all: rewrite and_then_menu_world, and_then_ret_world.
  all: match goal with
       | |- context [advance_queue ?w1] =>
           destruct (advance_queue_frame w1) as (-> & _)
       end.
  all: unfold location_state in *; simpl.
  all: rewrite find_dyn_fmap;
    [ rewrite Hloc; simpl; rewrite decide_True;
      [done|by rewrite (find_dyn_id _ _ _ Hloc)]
    | apply recorded_keeps_id; intros d' Hd';
      destruct (find_dyn b_id _) as [d0|] eqn:Hd0; simplify_eq/=;
      by eapply find_dyn_id ].
Qed.

Lemma step_keeps_closed (a : Action) (w : World) (b : Z) (d : Dyn) :
  location_state b (files w) = Some d →
  is_closed d = true →
  (∃ u dice, a = Callback u DResetGame dice ∧ tg_id u = admin_id (bot_data w))
  ∨ location_state b (files (world (step WORDS a w))) = Some d.
Proof.
  intros Hloc Hclosed. destruct a as [u now|u draws|u|u|u text now1 now2|u data dice];
    simpl.
  - right. by rewrite join_files.
  - right.
    destruct (decide (tg_id u = admin_id (bot_data w))) as [Hadm|Hadm];
      [|by rewrite begin_refused by by left].
    destruct (dict_keys (players (bot_data w))) as [|k keys] eqn:Hkeys.
    { rewrite begin_refused; [done|]. right.
      by destruct (players (bot_data w)). }
    destruct (begin_admin u draws w k keys Hadm Hkeys) as [_ ->].
    unfold location_state in *. rewrite load_save_state. simpl.
    by destruct (buildings (load_state (files w))) as [[|x l]|].
  - right. by rewrite menu_world.
  - right. by rewrite score_cmd_world.
  - right. by apply guess_keeps_closed.
  - unfold callback_handler.
    destruct (reset_marker_frame u data w) as [Hbot Hfiles].
    rewrite <- Hfiles in Hloc.
    destruct data; simpl;
      rewrite ?menu_world, ?score_cmd_world, ?player_or_admin_display,
        ?steal_files; try by right.
    destruct (decide (tg_id u = admin_id (bot_data w))) as [Hadm|Hadm].
    + left. by exists u, dice.
    + right. rewrite reset_refused; [done|]. by rewrite Hbot.
Qed.
(** C4, as the code has it. The flag is created false by [begin]; a recorded
    attempt sets it exactly when the word equals the secret
    case-insensitively; once true, the location's state is left as it is by
    every step except the administrator's reset; and a later guess at the
    location, by any user, changes neither the session nor the files: past
    the guards it is answered with [LocationClosed], or with
    [DuplicateGuess] when it repeats the last recorded word. *)
Theorem closed_flag_lifecycle :
  (∀ u draws w b d,
     tg_id u = admin_id (bot_data w) →
     players (bot_data w) ≠ [] →
     default [] (buildings (load_state (files w))) = [] →
     location_state b (files (world (begin u draws w))) = Some d →
     is_closed d = false)
  ∧ (∀ u text now1 now2 w b_id d building player,
       user_data w !! tg_id u = Some b_id →
       location_state b_id (files w) = Some d →
       is_closed d = false →
       is_duplicate (Some d) (upper (strip text)) = false →
       dict_get (str_of_int (tg_id u)) (players (bot_data w)) = Some player →
       state_game_active (bot_data w) = true →
       head (queue (bot_data w)) = Some (str_of_int (tg_id u)) →
       length (upper (strip text)) = 5%nat →
       lower (upper (strip text)) ∈ WORDS →
       find_building b_id (config (files w)) = Some building →
       is_Some (compare_word (upper (strip text)) (target_word building)) →
       ∃ d',
         location_state b_id
           (files (world (handle_guess_word WORDS u text now1 now2 w)))
         = Some d'
         ∧ attempt_word <$> last_attempt d' = Some (upper (strip text))
         ∧ (is_closed d' = true
            ↔ upper (upper (strip text)) = upper (target_word building)))
  ∧ (∀ a w b d,
       location_state b (files w) = Some d →
       is_closed d = true →
       (∃ u dice, a = Callback u DResetGame dice
                  ∧ tg_id u = admin_id (bot_data w))
       ∨ location_state b (files (world (step WORDS a w))) = Some d)
  ∧ (∀ u text now1 now2 w b_id d,
       user_data w !! tg_id u = Some b_id →
       location_state b_id (files w) = Some d →
       is_closed d = true →
       let o := handle_guess_word WORDS u text now1 now2 w in
       bot_data (world o) = bot_data w
       ∧ files (world o) = files w
       ∧ (registered (str_of_int (tg_id u)) (bot_data w) = true →
          state_game_active (bot_data w) = true →
          head (queue (bot_data w)) = Some (str_of_int (tg_id u)) →
          length (upper (strip text)) = 5%nat →
          lower (upper (strip text)) ∈ WORDS →
          is_Some (find_building b_id (config (files w))) →
          o = ret (set_user_data (delete (tg_id u) (user_data w)) w)
                [Reply (if is_duplicate (Some d) (upper (strip text))
                        then DuplicateGuess else LocationClosed)])).
Proof.
  split; [|split; [|split]].
  - intros u draws w b d Hadm Hplayers Hnone.
    destruct (dict_keys (players (bot_data w))) as [|k keys] eqn:Hkeys.
    { by destruct (players (bot_data w)). }
    destruct (begin_admin u draws w k keys Hadm Hkeys) as [_ ->].
    unfold location_state. rewrite load_save_state. simpl.
    destruct (buildings (load_state (files w))) as [[|x l]|]; simplify_eq/=.
    all: by intros [? _]%fresh_dyn_open.
  - intros u text now1 now2 w b_id d building player Hpend Hloc Hopen Hnodup
      Hplayer Hact Hhead Hlen Hdict Hb Hcmp.
    eexists. split; [by eapply guess_recorded|]. simpl. split; [done|].
    by rewrite bool_decide_eq_true.
  - intros a w b d. apply step_keeps_closed.
  - intros u text now1 now2 w b_id d Hpend Hloc Hclosed o.
    destruct (closed_guess_frame u text now1 now2 w b_id d Hpend Hloc Hclosed)
      as [Hbot Hfiles].
    split; [done|]. split; [done|].
    intros. by apply (closed_guess_answer u text now1 now2 w b_id d).
Qed.
End Closing.

(** ** The snapshot *)

Lemma run_reachable `{StrOps} (WORDS : list str) (acts : list Action)
    (w : World) :
  reachable WORDS w → Forall valid acts → reachable WORDS (run WORDS acts w).
Proof.
  revert w. induction acts as [|a acts IH]; intros w Hw Hv; simpl; [done|].
  apply Forall_cons in Hv as [Ha Hv]. apply IH; [|done].
  by apply reachable_step.
Qed.

Lemma started_reachable : reachable (ops:=ascii_ops) demo_words started.
Proof.
  apply run_reachable; [apply reachable_main|]. by repeat constructor.
Qed.

(** C1, as the code has it. What [save_state] writes, [load_json] reads back
    unchanged, and without a snapshot it reads the empty dict. The snapshot
    that [begin] writes holds the location states, the queue it has just
    seeded and the marker of an active game; the registry is not part of it.
    A restarted process keeps the files, hence every location state, and
    starts from an empty registry, an empty queue and an inactive status. *)
Theorem snapshot_round_trip (state : State) (fs : Files) (w : World) :
  load_state (save_state state fs) = state
  ∧ tmp_path (save_state state fs) = None
  ∧ (state_path fs = None → load_state fs = empty_state)
  ∧ (∀ u draws k keys,
       tg_id u = admin_id (bot_data w) →
       dict_keys (players (bot_data w)) = k :: keys →
       let w' := world (begin u draws w) in
       state_queue (load_state (files w')) = Some (queue (bot_data w'))
       ∧ game_state (load_state (files w')) = Some (py "active")
       ∧ is_Some (buildings (load_state (files w'))))
  ∧ files (restart w) = files w
  ∧ (∀ b, location_state b (files (restart w)) = location_state b (files w))
  ∧ players (bot_data (restart w)) = []
  ∧ queue (bot_data (restart w)) = []
  ∧ state_game_active (bot_data (restart w)) = false.
Proof.
  split; [done|]. split; [done|]. split.
  { unfold load_state. by intros ->. }
  split; [|done].
  intros u draws k keys Hadm Hkeys w'. subst w'.
  destruct (begin_admin u draws w k keys Hadm Hkeys) as [-> ->].
  rewrite load_save_state. simpl. split; [done|]. split; [done|]. by eexists.
Qed.

(** C1 fails on the code: the game that [begin] has just saved has two
    registered players, an active status and a queue, and after a restart
    from that snapshot the registry and the queue are empty and the game is
    inactive. Besides, a robbery changes the scores and leaves the snapshot
    as it was, so the scores cannot be read back from it. *)
Lemma restart_forgets_registry :
  let robbed :=
    world (step (ops:=ascii_ops) demo_words
             (Callback alice (DStealAt (py "22")) 2) started) in
  reachable (ops:=ascii_ops) demo_words started
  ∧ is_Some (state_path (files started))
  ∧ dict_keys (players (bot_data started)) = [py "11"; py "22"]
  ∧ queue (bot_data started) = [py "11"; py "22"]
  ∧ state_game_active (bot_data started) = true
  ∧ players (bot_data (restart started)) = []
  ∧ queue (bot_data (restart started)) = []
  ∧ state_game_active (bot_data (restart started)) = false
  ∧ bot_data (restart started) ≠ bot_data started
  ∧ files robbed = files started
  ∧ players (bot_data robbed) ≠ players (bot_data started).
Proof.
  split; [apply started_reachable|].
  split; [by eexists|].
  do 6 (split; [reflexivity|]).
  split; [|split; [reflexivity|]].
  - intros Heq. apply (f_equal state_game_active) in Heq. by vm_compute in Heq.
  - intros Heq. apply (f_equal (λ ps, score <$> dict_get (py "11") ps)) in Heq.
    by vm_compute in Heq.
Qed.

(** ** Steal resolution without the checks *)

(** C5 fails on the code. In the started game it is Alice's turn. Bob presses
    a target button: the robbery is resolved, Bob gains 10, Alice loses 10 and
    the queue advances past Alice. Alice presses a button carrying her own
    id: the robbery is resolved with herself as the victim, the scores stay
    and the queue advances. Neither press is refused. *)
Theorem steal_resolution_unchecked :
  let out_of_turn :=
    step (ops:=ascii_ops) demo_words
      (Callback bob (DStealAt (py "11")) 5) started in
  let self_target :=
    step (ops:=ascii_ops) demo_words
      (Callback alice (DStealAt (py "11")) 5) started in
  head (queue (bot_data started)) = Some (py "11")
  ∧ sent out_of_turn
    = [VictimNotice (py "11") true; Reply (StealSuccess 5);
       TurnNotice (py "22") (py "Bob"); Reply (Menu true false)]
  ∧ score <$> dict_get (py "22") (players (bot_data (world out_of_turn)))
    = Some 10
  ∧ score <$> dict_get (py "11") (players (bot_data (world out_of_turn)))
    = Some (-10)
  ∧ queue (bot_data (world out_of_turn)) = [py "22"; py "11"]
  ∧ sent self_target
    = [VictimNotice (py "11") true; Reply (StealSuccess 5);
       TurnNotice (py "22") (py "Bob"); Reply (Menu false false)]
  ∧ players (bot_data (world self_target)) = players (bot_data started)
  ∧ queue (bot_data (world self_target)) = [py "22"; py "11"].
Proof. by vm_compute. Qed.

(** ** Where the code departs from the specification, on the small party *)

(** C4 fails on the code as stated: location 1 is closed and it is Bob's
    turn; Bob types the word that closed it and is answered with
    [DuplicateGuess], not with [LocationClosed]. *)
Lemma closed_reguess_answered_duplicate :
  is_closed <$> location_state 1 (files bob_at_solved) = Some true
  ∧ head (queue (bot_data bob_at_solved)) = Some (py "22")
  ∧ sent (handle_guess_word (ops:=ascii_ops) demo_words bob (py "Peach")
            noon noon bob_at_solved)
    = [Reply DuplicateGuess]
  ∧ sent (handle_guess_word (ops:=ascii_ops) demo_words bob (py "Peach")
            noon noon bob_at_solved)
    ≠ [Reply LocationClosed].
Proof. by vm_compute. Qed.

(** C6 fails on the code: the first [join], before any [begin], leaves a
    queue that is not empty while the game is inactive. *)
Lemma join_fills_queue_before_begin :
  queue (bot_data (main 99 demo_files)) = []
  ∧ state_game_active
      (bot_data (world (join alice noon (main 99 demo_files)))) = false
  ∧ queue (bot_data (world (join alice noon (main 99 demo_files))))
    = [py "11"]
  ∧ queue (bot_data (world (join alice noon (main 99 demo_files))))
    ≠ queue (bot_data (main 99 demo_files)).
Proof. by vm_compute. Qed.

(** ** The theorems at work on the small party

    Each lemma below runs one of the theorems above on the party of Alice
    and Bob, with the ASCII string methods. *)

(** Bob repeats Alice's CHEAP at location 1, in another case and with blanks
    around it. *)
Lemma duplicate_guess_rejected_witness :
  let o :=
    handle_guess_word (ops:=ascii_ops) demo_words bob (py " Cheap ") noon noon
      bob_after_cheap in
  bot_data (world o) = bot_data bob_after_cheap
  ∧ files (world o) = files bob_after_cheap
  ∧ sent o = [Reply DuplicateGuess].
Proof.
  edestruct (duplicate_guess_rejected (ops:=ascii_ops) demo_words bob
               (py " Cheap ") noon noon bob_after_cheap 1)
    as (Hbot & Hfiles & Hans);
    [vm_compute; reflexivity | vm_compute; reflexivity
    | vm_compute; reflexivity | vm_compute; reflexivity |].
  split; [exact Hbot|]. split; [exact Hfiles|].
  rewrite Hans; [reflexivity|vm_compute; reflexivity..| | ].
  - apply (bool_decide_unpack _). vm_compute. exact I.
  - eexists. vm_compute. reflexivity.
Defined.

(** At the solved location 1 Bob is told "duplicate" for PEACH and "closed"
    for CHEAP. *)
Lemma duplicate_check_precedes_closed_witness :
  handle_guess_word (ops:=ascii_ops) demo_words bob (py "Peach") noon noon
    bob_at_solved
  = ret (set_user_data (delete 22 (user_data bob_at_solved)) bob_at_solved)
      [Reply DuplicateGuess]
  ∧ handle_guess_word (ops:=ascii_ops) demo_words bob (py "cheap") noon noon
      bob_at_solved
    = ret (set_user_data (delete 22 (user_data bob_at_solved)) bob_at_solved)
        [Reply LocationClosed].
Proof.
  split.
  - edestruct (duplicate_check_precedes_closed (ops:=ascii_ops) demo_words bob
                 (py "Peach") noon noon bob_at_solved 1)
      as (Hdup & _);
      [vm_compute; reflexivity..| | |].
    + apply (bool_decide_unpack _). vm_compute. exact I.
    + eexists. vm_compute. reflexivity.
    + apply Hdup. eexists. split; vm_compute; reflexivity.
  - edestruct (duplicate_check_precedes_closed (ops:=ascii_ops) demo_words bob
                 (py "cheap") noon noon bob_at_solved 1)
      as (_ & Hclosed & _);
      [vm_compute; reflexivity..| | |].
    + apply (bool_decide_unpack _). vm_compute. exact I.
    + eexists. vm_compute. reflexivity.
    + apply Hclosed. intros last [= <-]. by vm_compute.
Defined.

(** Bob's CHEAP at the solved location 1 changes nothing and the location
    stays closed. *)
Lemma closed_flag_lifecycle_witness :
  let o :=
    handle_guess_word (ops:=ascii_ops) demo_words bob (py "cheap") noon noon
      bob_at_solved in
  bot_data (world o) = bot_data bob_at_solved
  ∧ files (world o) = files bob_at_solved
  ∧ sent o = [Reply LocationClosed]
  ∧ is_closed
      <$> location_state 1
            (files (world (step (ops:=ascii_ops) demo_words
                             (Text bob (py "cheap") noon noon) bob_at_solved)))
    = Some true.
Proof.
  destruct (closed_flag_lifecycle (ops:=ascii_ops) demo_words)
    as (_ & _ & Hkeep & Hreject).
  edestruct (Hreject bob (py "cheap") noon noon bob_at_solved 1)
    as (Hbot & Hfiles & Hans);
    [vm_compute; reflexivity..|].
  split; [exact Hbot|]. split; [exact Hfiles|]. split.
  - rewrite Hans; [reflexivity|vm_compute; reflexivity..| | ].
    + apply (bool_decide_unpack _). vm_compute. exact I.
    + eexists. vm_compute. reflexivity.
  - edestruct (Hkeep (Text bob (py "cheap") noon noon) bob_at_solved 1)
      as [(u & dice & Hreset & _)|Hsame];
      [vm_compute; reflexivity..|discriminate Hreset|].
    rewrite Hsame. reflexivity.
Defined.

(** Alice is the first to join. *)
Lemma join_appends_to_queue_witness :
  queue (bot_data (world (join alice noon (main 99 demo_files)))) = [py "11"]
  ∧ queue (bot_data (main 99 demo_files))
    = dict_keys (players (bot_data (main 99 demo_files))).
Proof.
  destruct (join_appends_to_queue (ops:=ascii_ops) demo_words alice noon
              (main 99 demo_files))
    as (_ & Hq & _ & _ & Hinv & _); [done|reflexivity|].
  split; [exact Hq|].
  apply Hinv; [apply reachable_main|reflexivity].
Defined.

(** Alice robs Bob and the die shows 2: her score goes from 0 to -2. *)
Lemma steal_transfers_points_witness :
  ∃ thief' victim',
    dict_get (py "11")
      (players (bot_data (world (steal_handler alice (DStealAt (py "22")) 2
                                   started))))
    = Some thief'
    ∧ dict_get (py "22")
        (players (bot_data (world (steal_handler alice (DStealAt (py "22")) 2
                                     started))))
      = Some victim'
    ∧ score thief' = -2
    ∧ score victim' = 2.
Proof.
  edestruct (steal_transfers_points alice (py "22") 2 started)
    as (thief' & victim' & Hthief & Hvictim & _ & Hlow & _);
    [|vm_compute; reflexivity..| |].
  - apply (bool_decide_unpack _). vm_compute. exact I.
  - by vm_compute.
  - exists thief', victim'. split; [exact Hthief|]. split; [exact Hvictim|].
    apply Hlow. lia.
Defined.

(** Two players, two calls; and the empty queue of a fresh process. *)
Lemma advance_queue_cyclic_witness :
  raised (advance_times 2 started) = None
  ∧ queue (bot_data (world (advance_times 2 started)))
    = queue (bot_data started)
  ∧ advance_queue (main 99 demo_files) = ret (main 99 demo_files) [].
Proof.
  destruct (advance_queue_cyclic started) as (_ & _ & Hcycle).
  destruct (advance_queue_cyclic (main 99 demo_files)) as (Hempty & _).
  destruct Hcycle as (Hraised & Hqueue & _).
  - apply (bool_decide_unpack _). vm_compute. exact I.
  - apply (bool_decide_unpack _). vm_compute. exact I.
  - split; [exact Hraised|]. split; [exact Hqueue|]. by apply Hempty.
Defined.

(** No snapshot at first; then the one written by [begin]. *)
Lemma snapshot_round_trip_witness :
  load_state demo_files = empty_state
  ∧ state_queue (load_state (files (world (begin root [1%nat] joined))))
    = Some (queue (bot_data (world (begin root [1%nat] joined)))).
Proof.
  destruct (snapshot_round_trip empty_state demo_files joined)
    as (_ & _ & Hnone & Hbegin & _).
  split; [by apply Hnone|].
  edestruct (Hbegin root [1%nat]) as (Hq & _);
    [reflexivity|vm_compute; reflexivity|exact Hq].
Defined.

(** * Further properties of the code *)

(** ** [compare_word] outside five-letter words *)

Lemma mark_green_short (guess tp ts : str) (res : list colour)
    (remaining : str) :
  (length ts < length guess)%nat →
  mark_green (tp ++ ts) (length tp) guess res remaining = None.
Proof.
  revert tp ts res remaining.
  induction guess as [|ch guess IH]; intros tp ts res remaining Hlt;
    [simpl in Hlt; lia|].
  destruct ts as [|t ts]; cbn [mark_green].
  - rewrite app_nil_r, lookup_ge_None_2 by lia. done.
  - rewrite list_lookup_middle by done.
    specialize (IH (tp ++ [t]) ts).
    rewrite <- (assoc_L (++) tp [t] ts), length_app, Nat.add_1_r in IH.
    simpl in IH, Hlt. case_decide; apply IH; lia.
Qed.

Lemma greens_length_le (g t : str) :
  (length g ≤ length t)%nat → length (greens g t) = length g.
Proof.
  revert t. induction g as [|a g IH]; intros [|b t] Hlen; simpl in *;
    try done; try lia.
  f_equal. apply IH. lia.
Qed.

Lemma greens_take (g t : str) : greens g (take (length g) t) = greens g t.
Proof.
  revert t. induction g as [|a g IH]; intros [|b t]; simpl; try done.
  by rewrite IH.
Qed.

Lemma leftover_take (g t : str) :
  leftover g (take (length g) t) = leftover g t.
Proof.
  revert t. induction g as [|a g IH]; intros [|b t]; simpl; try done.
  by rewrite IH.
Qed.


(** X1. [compare_word] raises (the [IndexError] of [target[i]]) exactly when
    the upper-cased secret is shorter than the upper-cased guess; otherwise
    it returns one colour per letter of the guess. *)
Theorem compare_word_raises_iff `{StrOps} (guess target : str) :
  (compare_word guess target = None
   ↔ (length (upper target) < length (upper guess))%nat)
  ∧ (∀ res, compare_word guess target = Some res →
            length res = length (upper guess)).
Proof.
  destruct (decide (length (upper guess) ≤ length (upper target))%nat)
    as [Hle|Hgt].
  - rewrite compare_word_structural by done. split.
    + split; [done|lia].
    + intros res [= <-]. by rewrite yellows_length, greens_length_le.
  - assert (compare_word guess target = None) as ->.
    { unfold compare_word.
      pose proof (mark_green_short (upper guess) [] (upper target)
                    (replicate (length (upper guess)) gray) []) as Hshort.
      simpl in Hshort. rewrite Hshort; [done|lia]. }
    split; [|done]. split; [lia|done].
Qed.

(** X2. Letters of the secret beyond the length of the guess play no part:
    when the secret is at least as long as the guess, the result is the
    two-pass classification against the secret cut to the length of the
    guess. *)
Theorem compare_word_ignores_tail `{StrOps} (guess target : str) :
  (length (upper guess) ≤ length (upper target))%nat →
  compare_word guess target
  = Some (two_pass (upper guess)
            (take (length (upper guess)) (upper target))).
Proof.
  intros Hle. rewrite compare_word_structural by done. f_equal.
  rewrite <- (greens_take (upper guess) (upper target)),
    <- (leftover_take (upper guess) (upper target)).
  assert (length (upper guess)
          = length (take (length (upper guess)) (upper target))) as Hlen.
  { by rewrite length_take_le. }
  unfold two_pass. rewrite yellows_partial_pass by done. f_equal.
  rewrite (leftover_exact_split _ _ Hlen). multiset_solver.
Qed.

Lemma compare_word_ignores_tail_witness :
  compare_word (H:=ascii_ops) (py "cheap") (py "peaches")
  = Some [yellow; yellow; yellow; yellow; yellow].
Proof.
  rewrite (compare_word_ignores_tail (H:=ascii_ops) (py "cheap") (py "peaches"));
    [reflexivity|].
  vm_compute. lia.
Defined.

(** ** The points of a solved word *)

Lemma score_from_bound (colours : list colour) :
  score_from colours ≤ 10 * Z.of_nat (length colours)
  ∧ (score_from colours = 10 * Z.of_nat (length colours)
     → Forall (λ c, c = green) colours).
Proof.
  induction colours as [|c colours [IHle IHeq]]; [by split|].
  rewrite score_from_cons. cbn [length]. rewrite Nat2Z.inj_succ.
  split; [destruct c; lia|].
  intros Heq. destruct c; try lia.
  constructor; [done|]. apply IHeq. lia.
Qed.

Lemma score_from_all_green (n : nat) :
  score_from (replicate n green) = 10 * Z.of_nat n.
Proof.
  induction n as [|n IH]; [done|].
  cbn [replicate]. rewrite score_from_cons, IH. lia.
Qed.

Lemma yellows_green_inv (g : str) (rs : list colour) (remaining : str) :
  Forall (λ c, c = green) (yellows g rs remaining) →
  Forall (λ c, c = green) rs.
Proof.
  revert rs remaining.
  induction g as [|a g IH]; intros [|r rs] remaining; simpl; try done.
  destruct (bool_decide (r = gray) && bool_decide (a ∈ remaining)).
  - intros Hall. apply Forall_cons in Hall as [? _]. done.
  - intros Hall. apply Forall_cons in Hall as [? Hall].
    constructor; [done|]. by eapply IH.
Qed.

Lemma greens_all_green_inv (g t : str) :
  length g = length t → Forall (λ c, c = green) (greens g t) → g = t.
Proof.
  revert t. induction g as [|a g IH]; intros [|b t] Hlen; simplify_eq/=;
    [done|].
  intros Hall. apply Forall_cons in Hall as [Hc Hall].
  destruct (decide (a = b)) as [->|]; [|done].
  f_equal. by apply IH.
Qed.

(** X3. For a guess and a secret of the same length (upper-cased), the
    points of the comparison reach 10 per letter exactly when the two words
    are equal case-insensitively: the test that closes a location and the
    full score go together. *)
Theorem full_score_iff_solved `{StrOps} (guess target : str)
    (res : list colour) :
  length (upper guess) = length (upper target) →
  compare_word guess target = Some res →
  (score_from res = 10 * Z.of_nat (length (upper guess))
   ↔ upper guess = upper target).
Proof.
  intros Hlen. rewrite compare_word_structural by lia. intros [= <-]. split.
  - intros Hscore.
    apply (greens_all_green_inv _ _ Hlen).
    eapply yellows_green_inv. apply score_from_bound.
    by rewrite yellows_length, greens_length.
  - intros <-.
    by rewrite greens_same, yellows_all_green, score_from_all_green.
Qed.

Lemma full_score_iff_solved_witness :
  score_from [green; green; green; green; green] = 50
  ↔ upper (StrOps:=ascii_ops) (py "peach") = upper (StrOps:=ascii_ops) (py "PEACH").
Proof.
  apply (full_score_iff_solved (H:=ascii_ops) (py "peach") (py "PEACH"));
    reflexivity.
Defined.

(** ** Robbery keeps the points *)

Lemma total_score_alter (delta : Z) (k : str) (ps : list (str * Player)) :
  total_score (dict_alter (add_score delta) k ps)
  = total_score ps + match dict_get k ps with Some _ => delta | None => 0 end.
Proof.
  induction ps as [|[k0 p] ps IH]; simpl; [done|].
  destruct (decide (k = k0)); simpl; [lia|]. rewrite IH. lia.
Qed.

(** X4. Whatever the button, the caller, the target and the die,
    [steal_handler] leaves the sum of all scores as it was: a robbery moves
    points, it never makes or destroys them (also when the thief names
    themselves). *)
Theorem steal_conserves_points (u : User) (data : Data) (dice : Z) (w : World) :
  total_score (players (bot_data (world (steal_handler u data dice w))))
  = total_score (players (bot_data w)).
Proof.
  unfold steal_handler, steal_target_kb, active_player.
  repeat case_match; simpl; try done.
  all: rewrite and_then_menu_world, and_then_ret_world.
  all: match goal with
       | |- context [advance_queue ?w1] =>
           destruct (advance_queue_frame w1) as (_ & _ & -> & _)
       end.
  all: simpl; rewrite !total_score_alter, dict_get_alter.
  all: repeat case_match; simplify_eq/=; try lia.
  all: match goal with
       | H : _ <$> dict_get ?k ?ps = None, H' : dict_get ?k ?ps = Some _ |- _ =>
           by rewrite H' in H
       end.
Qed.

Lemma compare_word_raises_iff_witness :
  compare_word (H:=ascii_ops) (py "cheap") (py "pea") = None
  ∧ length [yellow; yellow; yellow; yellow; yellow]
    = length (upper (StrOps:=ascii_ops) (py "cheap")).
Proof.
  destruct (compare_word_raises_iff (H:=ascii_ops) (py "cheap") (py "pea"))
    as [Hshort _].
  destruct (compare_word_raises_iff (H:=ascii_ops) (py "cheap") (py "peach"))
    as [_ Hlen].
  split.
  - apply Hshort. vm_compute. lia.
  - apply Hlen. reflexivity.
Defined.

(** ** Who is in the registry *)

Lemma py_inj (s1 s2 : string) : py s1 = py s2 → s1 = s2.
Proof.
  unfold py. intros Heq.
  rewrite <- (string_of_list_ascii_of_string s1),
    <- (string_of_list_ascii_of_string s2).
  f_equal. revert Heq.
  generalize (list_ascii_of_string s2). generalize (list_ascii_of_string s1).
  induction l as [|a l IH]; intros [|b l'] Heq; simplify_eq/=; [done|].
  f_equal; [|by apply IH].
  rewrite <- (ascii_N_embedding a), <- (ascii_N_embedding b). by f_equal.
Qed.

Lemma str_of_int_inj (n m : Z) : str_of_int n = str_of_int m → n = m.
Proof. intros Heq%py_inj. by apply (inj pretty). Qed.

Lemma steal_registry (u : User) (data : Data) (dice : Z) (w : World) :
  admin_id (bot_data (world (steal_handler u data dice w)))
  = admin_id (bot_data w)
  ∧ dict_keys (players (bot_data (world (steal_handler u data dice w))))
    = dict_keys (players (bot_data w)).
Proof.
  unfold steal_handler, steal_target_kb, active_player.
  repeat case_match; simpl; try done.
  all: rewrite and_then_menu_world, and_then_ret_world.
  all: match goal with
       | |- context [advance_queue ?w1] =>
           destruct (advance_queue_frame w1) as (_ & _ & -> & ->)
       end.
  all: simpl; by rewrite !dict_keys_alter.
Qed.

Section Registry.
Context `{ops : StrOps} (WORDS : list str).

Lemma guess_registry (u : User) (text now1 now2 : str) (w : World) :
  let w' := world (handle_guess_word WORDS u text now1 now2 w) in
  admin_id (bot_data w') = admin_id (bot_data w)
  ∧ dict_keys (players (bot_data w')) = dict_keys (players (bot_data w)).
Proof.
  intros w'. subst w'.
  destruct (guess_frame_or_guards WORDS u text now1 now2 w)
    as [[-> _]|(b_id & building & Hpend & Hreg & Hact & Hhead & Hlen
                 & Hdict & Hb)]; [done|].
  rewrite (guess_guards WORDS u text now1 now2 w b_id Hpend Hreg Hact Hhead
             Hlen Hdict building Hb).
  simpl. repeat case_match; simpl; try done.
  all: rewrite and_then_menu_world, and_then_ret_world.
  all: match goal with
       | |- context [advance_queue ?w1] =>
           destruct (advance_queue_frame w1) as (_ & _ & -> & ->)
       end.
  all: simpl; by rewrite dict_keys_alter.
Qed.

(** How one step changes the registry: not at all, or it is emptied, or a
    user other than the administrator has joined. *)
Lemma step_registry (a : Action) (w : World) :
  let bd := bot_data w in
  let bd' := bot_data (world (step WORDS a w)) in
  admin_id bd' = admin_id bd
  ∧ (dict_keys (players bd') = dict_keys (players bd)
     ∨ (players bd' = []
        ∧ ∃ u dice, a = Callback u DResetGame dice ∧ tg_id u = admin_id bd)
     ∨ (∃ u now,
          a = Join u now ∧ tg_id u ≠ admin_id bd
          ∧ dict_get (str_of_int (tg_id u)) (players bd) = None
          ∧ players bd'
            = players bd
              ++ [(str_of_int (tg_id u),
                   {| username := display_name u; score := 0;
                      last_active := now |})])).
Proof.
  intros bd bd'. subst bd bd'.
  destruct a as [u now|u draws|u|u|u text now1 now2|u data dice]; simpl.
  - unfold join. case_decide as Hadm; [by split; [|left]|].
    destruct (registered _ _) eqn:Hreg; [by split; [|left]|].
    split; [done|]. right. right. exists u, now.
    apply bool_decide_eq_false in Hreg.
    assert (dict_get (str_of_int (tg_id u)) (players (bot_data w)) = None)
      as Hfresh.
    { destruct (dict_get _ _) eqn:Hget; [|done]. destruct Hreg. by eexists. }
    simpl. by rewrite dict_set_fresh.
  - destruct (decide (tg_id u = admin_id (bot_data w))) as [Hadm|Hadm];
      [|rewrite begin_refused by (by left); by split; [|left]].
    destruct (dict_keys (players (bot_data w))) as [|k keys] eqn:Hkeys.
    { rewrite begin_refused; [by split; [|left]|]. right.
      by destruct (players (bot_data w)). }
    destruct (begin_admin u draws w k keys Hadm Hkeys) as [-> _].
    simpl. split; [done|]. by left.
  - rewrite menu_world. by split; [|left].
  - rewrite score_cmd_world. by split; [|left].
  - destruct (guess_registry u text now1 now2 w) as [-> ->]. by split; [|left].
  - unfold callback_handler.
    destruct (reset_marker_frame u data w) as [Hbot _].
    rewrite <- Hbot.
    destruct data; simpl;
      rewrite ?menu_world, ?score_cmd_world, ?player_or_admin_display;
      try (by split; [|left]).
    + destruct (steal_registry u DSteal dice (reset_marker u DSteal w))
        as [-> ->]. by split; [|left].
    + destruct (steal_registry u (DStealAt target_id) dice
                  (reset_marker u (DStealAt target_id) w)) as [-> ->].
      by split; [|left].
    + unfold reset_game, admin_only. case_decide as Hadm; simpl.
      * by split; [|left].
      * split; [done|]. right. left. split; [done|]. exists u, dice.
        by split.
Qed.

(** X5. In every world the process reaches, the turn queue holds each
    registered player exactly once and nobody else. *)
Theorem reachable_queue_is_registry (w : World) :
  reachable WORDS w →
  NoDup (queue (bot_data w))
  ∧ (∀ uid, uid ∈ queue (bot_data w) ↔ registered uid (bot_data w) = true)
  ∧ length (queue (bot_data w)) = length (players (bot_data w)).
Proof.
  intros (Hnd & Hperm & _)%reachable_session_inv.
  split; [by rewrite Hperm|]. split.
  - intros uid. by rewrite Hperm, registered_elem_of.
  - rewrite Hperm. unfold dict_keys. by rewrite length_fmap.
Qed.

(** X6. The administrator of the process is never a player: in every
    reachable world the administrator's id is neither in the registry nor in
    the queue, and the administrator id itself never changes. *)
Theorem admin_never_plays (ADMIN_ID : Z) (fs : Files) (acts : list Action) :
  let w := run WORDS acts (main ADMIN_ID fs) in
  admin_id (bot_data w) = ADMIN_ID
  ∧ registered (str_of_int ADMIN_ID) (bot_data w) = false
  ∧ str_of_int ADMIN_ID ∉ queue (bot_data w).
Proof.
  intros w. subst w.
  assert (∀ w0,
            session_inv (bot_data w0) →
            str_of_int (admin_id (bot_data w0))
            ∉ dict_keys (players (bot_data w0)) →
            let w := run WORDS acts w0 in
            admin_id (bot_data w) = admin_id (bot_data w0)
            ∧ session_inv (bot_data w)
            ∧ str_of_int (admin_id (bot_data w0))
              ∉ dict_keys (players (bot_data w))) as Hrun.
  { induction acts as [|a acts IH]; intros w0 Hinv Hout; simpl; [done|].
    destruct (step_registry a w0) as [Hadm Hkeys].
    destruct (IH (world (step WORDS a w0))) as (Hadm' & Hinv' & Hout').
    - by apply session_inv_step.
    - rewrite Hadm.
      destruct Hkeys as [->|[[-> _]|(u & now & _ & Hne & _ & ->)]];
        [done|apply not_elem_of_nil|].
      unfold dict_keys. rewrite fmap_app. simpl.
      rewrite not_elem_of_app. split; [done|].
      rewrite list_elem_of_singleton. by intros ?%str_of_int_inj.
    - rewrite Hadm', Hadm. split; [done|]. split; [done|].
      by rewrite Hadm in Hout'. }
  destruct (Hrun (main ADMIN_ID fs)) as (Hadm & (_ & Hperm & _) & Hout).
  - unfold session_inv. simpl. split; [constructor|done].
  - apply not_elem_of_nil.
  - simpl in *. split; [done|]. split.
    + apply bool_decide_eq_false. by rewrite dict_get_is_Some.
    + by rewrite Hperm.
Qed.
End Registry.

(** ** What can raise *)

Lemma raised_and_then (o : Outcome) (k : World → Outcome) :
  raised (and_then o k)
  = match raised o with
    | Some e => Some e
    | None => raised (k (world o))
    end.
Proof. unfold and_then. by destruct (raised o) eqn:Hr. Qed.

Lemma menu_raised (u : User) (w : World) : raised (menu u w) = None.
Proof. by destruct (menu_ret u w) as [evs ->]. Qed.

Lemma session_inv_queue_registered (bd : BotData) :
  session_inv bd → Forall (λ uid, registered uid bd = true) (queue bd).
Proof.
  intros (_ & Hperm & _). apply Forall_forall. intros uid Hin.
  apply registered_elem_of. by rewrite <- Hperm.
Qed.


Lemma advance_then_menu_raised (u : User) (w : World) (evs : list Event) :
  session_inv (bot_data w) →
  raised (and_then (and_then (ret w evs) advance_queue) (menu u)) = None.
Proof.
  intros Hinv. rewrite !raised_and_then. simpl.
  rewrite advance_queue_raised by by apply session_inv_queue_registered.
  apply menu_raised.
Qed.



Section Raising.
Context `{ops : StrOps} (WORDS : list str).


End Raising.

(** ** What a text message does to scores, turn and selection *)

Section Messages.
Context `{ops : StrOps} (WORDS : list str).

Lemma guess_never_lowers_scores_aux (u : User) (text now1 now2 : str)
    (w : World) (k : str) (p : Player) :
  dict_get k (players (bot_data w)) = Some p →
  ∃ p',
    dict_get k
      (players (bot_data (world (handle_guess_word WORDS u text now1 now2 w))))
    = Some p'
    ∧ username p' = username p
    ∧ score p ≤ score p'
    ∧ (k ≠ str_of_int (tg_id u) → p' = p).
Proof.
  intros Hk.
  destruct (guess_frame_or_guards WORDS u text now1 now2 w)
    as [[-> _]|(b_id & building & Hpend & Hreg & Hact & Hhead & Hlen
                 & Hdict & Hb)]; [by exists p|].
  rewrite (guess_guards WORDS u text now1 now2 w b_id Hpend Hreg Hact Hhead
             Hlen Hdict building Hb).
  simpl.
  destruct (is_duplicate _ _); [by exists p|].
  destruct (closed _); [by exists p|].
  destruct (compare_word _ _) as [colours|]; [|by exists p].
  destruct (dict_get (str_of_int (tg_id u)) _) as [player|]; [|by exists p].
  simpl. rewrite and_then_menu_world, and_then_ret_world.
  match goal with
  | |- context [advance_queue ?w1] =>
      destruct (advance_queue_frame w1) as (_ & _ & -> & _)
  end.
  simpl. rewrite dict_get_alter, Hk.
  pose proof (score_from_nonneg colours).
  case_decide; simpl; eexists; (split; [done|]); simpl.
  - repeat split; [lia|done].
  - by repeat split.
Qed.

(** X8. A text message never lowers a score and never renames a player; it
    can change the record of its sender only. *)
Theorem guess_never_lowers_scores (u : User) (text now1 now2 : str)
    (w : World) (k : str) (p : Player) :
  dict_get k (players (bot_data w)) = Some p →
  ∃ p',
    dict_get k
      (players (bot_data (world (handle_guess_word WORDS u text now1 now2 w))))
    = Some p'
    ∧ username p' = username p
    ∧ score p ≤ score p'
    ∧ (k ≠ str_of_int (tg_id u) → p' = p).
Proof. apply guess_never_lowers_scores_aux. Qed.

(** X9. The selection of a location. A message sent out of turn is refused
    and leaves the whole world, the selection included, as it is. A word of
    the wrong length or outside the dictionary, sent by the turn holder, is
    refused at the cost of the selection only: the session and the files
    stay, the turn is not passed, and the next message of that user is
    ignored without an answer. *)
Theorem selection_lifecycle (u : User) (text now1 now2 : str) (w : World)
    (b_id : Z) (current : str) (rest : list str) :
  registered (str_of_int (tg_id u)) (bot_data w) = true →
  state_game_active (bot_data w) = true →
  user_data w !! tg_id u = Some b_id →
  queue (bot_data w) = current :: rest →
  let o := handle_guess_word WORDS u text now1 now2 w in
  let w1 := set_user_data (delete (tg_id u) (user_data w)) w in
  (current ≠ str_of_int (tg_id u) → o = ret w [Reply NotYourTurn])
  ∧ (current = str_of_int (tg_id u) →
     length (upper (strip text)) ≠ 5%nat →
     o = ret w1 [Reply InvalidLength])
  ∧ (current = str_of_int (tg_id u) →
     length (upper (strip text)) = 5%nat →
     lower (upper (strip text)) ∉ WORDS →
     o = ret w1 [Reply NotInDictionary])
  ∧ (∀ text' now3 now4,
       handle_guess_word WORDS u text' now3 now4 w1 = ret w1 []).
Proof.
  intros Hreg Hact Hpend Hq o w1. subst o w1.
  unfold handle_guess_word, active_player. simpl.
  rewrite Hreg, Hact, Hpend, Hq, lookup_delete_eq. simpl.
  split; [|split; [|split]].
  - intros Hne. by rewrite decide_True.
  - intros -> Hlen. rewrite decide_False by (by intros []).
    by rewrite decide_True.
  - intros -> Hlen Hdict. rewrite decide_False by (by intros []).
    rewrite decide_False by (by intros []). by rewrite decide_True.
  - done.
Qed.

(** X10. A recorded guess, in a reachable world: the sender gains the points
    of the comparison and the time stamp of the message, the selection is
    used up, the sender moves from the head of the queue to its tail, the
    new head is sent the turn notice, and nothing is raised. *)
Theorem recorded_guess_effects (u : User) (text now1 now2 : str) (w : World)
    (b_id : Z) (building : Building) (player : Player)
    (colours : list colour) (rest : list str) :
  reachable WORDS w →
  user_data w !! tg_id u = Some b_id →
  dict_get (str_of_int (tg_id u)) (players (bot_data w)) = Some player →
  state_game_active (bot_data w) = true →
  queue (bot_data w) = str_of_int (tg_id u) :: rest →
  length (upper (strip text)) = 5%nat →
  lower (upper (strip text)) ∈ WORDS →
  find_building b_id (config (files w)) = Some building →
  is_duplicate (location_state b_id (files w)) (upper (strip text)) = false →
  closed (location_state b_id (files w)) = false →
  compare_word (upper (strip text)) (target_word building) = Some colours →
  let o := handle_guess_word WORDS u text now1 now2 w in
  let next := hd (str_of_int (tg_id u)) (rest ++ [str_of_int (tg_id u)]) in
  raised o = None
  ∧ dict_get (str_of_int (tg_id u)) (players (bot_data (world o)))
    = Some {| username := username player;
              score := score player + score_from colours;
              last_active := now1 |}
  ∧ queue (bot_data (world o)) = rest ++ [str_of_int (tg_id u)]
  ∧ user_data (world o) !! tg_id u = None
  ∧ (∃ name, username <$> dict_get next (players (bot_data w)) = Some name
             ∧ TurnNotice next name ∈ sent o).
Proof.
  intros Hinv%reachable_session_inv Hpend Hplayer Hact Hq Hlen Hdict Hb Hdup
    Hopen Hcmp o next.
  assert (registered (str_of_int (tg_id u)) (bot_data w) = true) as Hreg.
  { apply bool_decide_eq_true. rewrite Hplayer. by eexists. }
  assert (head (queue (bot_data w)) = Some (str_of_int (tg_id u))) as Hhead
    by by rewrite Hq.
  subst o.
  rewrite (guess_guards WORDS u text now1 now2 w b_id Hpend Hreg Hact Hhead
             Hlen Hdict building Hb).
  simpl. rewrite Hdup, Hopen, Hcmp, Hplayer.
  match goal with
  | |- context [and_then (and_then (ret ?w2 ?evs) advance_queue) (menu u)] =>
      set (w2' := w2); set (evs' := evs)
  end.
  assert (session_inv (bot_data w2')) as Hinv2.
  { apply (session_inv_ext (bot_data w)); simpl; try done.
    by rewrite dict_keys_alter. }
  assert (next ∈ queue (bot_data w)) as Hnext.
  { rewrite Hq. subst next. destruct rest; simpl; set_solver. }
  destruct Hinv as (_ & Hperm & _).
  rewrite Hperm in Hnext. apply dict_get_is_Some in Hnext as [pnext Hpnext].
  split; [by apply advance_then_menu_raised|].
  rewrite and_then_menu_world, and_then_ret_world.
  rewrite (advance_queue_cons w2' (str_of_int (tg_id u)) rest) by done.
  simpl. rewrite dict_get_alter, decide_True, Hplayer by done. simpl.
  split; [done|]. split; [done|]. split; [apply lookup_delete_eq|].
  exists (username pnext). rewrite Hpnext. split; [done|].
  unfold and_then at 1. rewrite raised_and_then. simpl.
  rewrite advance_queue_raised by by apply session_inv_queue_registered.
  simpl. apply elem_of_cons. right. apply elem_of_app. left.
  unfold advance_queue. simpl. rewrite Hq. fold next.
  rewrite dict_get_alter.
  case_decide; rewrite Hpnext; simpl; by left.
Qed.
End Messages.

(** ** [reset_game] and [begin] *)

Lemma find_dyn_fresh (b : Z) (cfg : list Building) :
  find_dyn b (fresh_dyn <$> cfg) = fresh_dyn <$> find_building b cfg.
Proof.
  induction cfg as [|x cfg IH]; simpl; [done|]. by case_decide.
Qed.

(** X11. The administrator's reset brings the session back to that of a
    fresh process and removes the snapshot, so no location has a state any
    more (the users' pending selections are not cleared). Whoever joins
    afterwards, the next [begin] creates every configured location open and
    without a last attempt. *)
Theorem reset_then_begin_reopens (admin : User) (w : World) :
  tg_id admin = admin_id (bot_data w) →
  let w1 := world (reset_game admin w) in
  bot_data w1 = bot_data (main (admin_id (bot_data w)) (files w))
  ∧ state_path (files w1) = None
  ∧ (∀ b, location_state b (files w1) = None)
  ∧ user_data w1 = user_data w
  ∧ (∀ w2 draws b,
       files w2 = files w1 →
       tg_id admin = admin_id (bot_data w2) →
       players (bot_data w2) ≠ [] →
       location_state b (files (world (begin admin draws w2)))
       = fresh_dyn <$> find_building b (config (files w))).
Proof.
  intros Hadm w1. subst w1. unfold reset_game, admin_only.
  rewrite decide_False by (by intros []). simpl.
  split; [done|]. split; [done|]. split; [done|]. split; [done|].
  intros w2 draws b Hfiles Hadm2 Hplayers.
  destruct (dict_keys (players (bot_data w2))) as [|k keys] eqn:Hkeys.
  { by destruct (players (bot_data w2)). }
  destruct (begin_admin admin draws w2 k keys Hadm2 Hkeys) as [_ ->].
  unfold location_state. rewrite load_save_state, Hfiles. simpl.
  apply find_dyn_fresh.
Qed.

(** X12. [begin] is not refused while a game runs. Given again by the
    administrator over a snapshot that has location states, it keeps every
    location state and every player record (scores included), seeds the
    queue with a new arrangement of the registered ids and writes that queue
    to the snapshot. *)
Theorem begin_again_keeps_progress (admin : User) (draws : list nat)
    (w : World) (d0 : Dyn) (l : list Dyn) :
  tg_id admin = admin_id (bot_data w) →
  players (bot_data w) ≠ [] →
  buildings (load_state (files w)) = Some (d0 :: l) →
  let w' := world (begin admin draws w) in
  (∀ b, location_state b (files w') = location_state b (files w))
  ∧ players (bot_data w') = players (bot_data w)
  ∧ queue (bot_data w') ≡ₚ dict_keys (players (bot_data w))
  ∧ state_game_active (bot_data w') = true
  ∧ state_queue (load_state (files w')) = Some (queue (bot_data w')).
Proof.
  intros Hadm Hplayers Hblds w'. subst w'.
  destruct (dict_keys (players (bot_data w))) as [|k keys] eqn:Hkeys.
  { by destruct (players (bot_data w)). }
  destruct (begin_admin admin draws w k keys Hadm Hkeys) as [-> ->].
  unfold location_state. rewrite load_save_state, Hblds. simpl.
  repeat split; try done. apply shuffle_perm.
Qed.

(** ** The pending selection and the buttons *)

Lemma steal_user_data (u : User) (data : Data) (dice : Z) (w : World) :
  user_data (world (steal_handler u data dice w)) = user_data w.
Proof.
  unfold steal_handler, steal_target_kb, active_player.
  repeat case_match; simpl; try done.
  all: rewrite and_then_menu_world, and_then_ret_world.
  all: match goal with
       | |- context [advance_queue ?w1] =>
           by destruct (advance_queue_frame w1) as (_ & -> & _)
       end.
Qed.

Lemma callback_user_data (u : User) (data : Data) (dice : Z) (w : World) :
  is_guess_data data = false →
  user_data (world (callback_handler u data dice w))
  = user_data (reset_marker u data w).
Proof.
  intros Hdata. unfold callback_handler.
  destruct data; simpl in *;
    rewrite ?menu_world, ?score_cmd_world, ?player_or_admin_display,
      ?steal_user_data; try done.
  unfold reset_game, admin_only. by case_decide.
Qed.

(** X13. Pressing a location button stores the selection for that user,
    registered or not, and touches nobody else's. Any later button that is
    not part of guessing drops the selection, except the selection of
    location id 0, which stays. *)
Theorem selection_dropped_unless_zero (u : User) (b_id : Z) (data : Data)
    (dice dice' : Z) (w : World) :
  is_guess_data data = false →
  let w1 := world (callback_handler u (DGuessAt b_id) dice w) in
  let w2 := world (callback_handler u data dice' w1) in
  user_data w1 !! tg_id u = Some b_id
  ∧ (∀ v, v ≠ tg_id u → user_data w1 !! v = user_data w !! v)
  ∧ bot_data w1 = bot_data w
  ∧ files w1 = files w
  ∧ user_data w2 !! tg_id u = (if decide (b_id = 0) then Some 0 else None)
  ∧ (∀ v, v ≠ tg_id u → user_data w2 !! v = user_data w !! v).
Proof.
  intros Hdata w1 w2.
  assert (user_data w1 = <[tg_id u:=b_id]> (user_data w)
          ∧ bot_data w1 = bot_data w ∧ files w1 = files w) as (Hud & Hbd & Hfs).
  { subst w1. unfold callback_handler, reset_marker. simpl.
    destruct (user_data w !! tg_id u); rewrite ?andb_false_r; done. }
  subst w2. clearbody w1. rewrite (callback_user_data u data dice' w1 Hdata).
  unfold reset_marker. rewrite Hud, lookup_insert_eq, Hdata. simpl.
  split; [done|]. split; [by intros v Hv; rewrite lookup_insert_ne|].
  split; [done|]. split; [done|].
  rewrite andb_true_r. destruct (decide (b_id = 0)) as [->|Hne]; simpl.
  - rewrite Hud, lookup_insert_eq.
    split; [done|]. by intros v Hv; rewrite lookup_insert_ne.
  - rewrite bool_decide_eq_true_2 by done. simpl.
    split; [apply lookup_delete_eq|].
    intros v Hv. by rewrite lookup_delete_ne, lookup_insert_ne.
Qed.

(** ** Joining twice *)

Lemma dict_get_set_eq {V} (k : str) (v : V) (d : list (str * V)) :
  dict_get k (dict_set k v d) = Some v.
Proof.
  induction d as [|[k0 v0] d IH]; simpl; [by rewrite decide_True|].
  destruct (decide (k = k0)) as [->|Hne]; simpl.
  - by rewrite decide_True.
  - by rewrite decide_False.
Qed.

(** X14. [join] given twice by the same user does the work once: the second
    call changes nothing (the score and the time stamp of the first call
    stay) and answers that the user is in the game already, or, for the
    administrator, that the administrator does not play. *)
Theorem join_twice (u : User) (now now' : str) (w : World) :
  let w1 := world (join u now w) in
  (tg_id u = admin_id (bot_data w) →
   join u now' w1 = ret w1 [Reply AdminCannotJoin] ∧ w1 = w)
  ∧ (tg_id u ≠ admin_id (bot_data w) →
     join u now' w1 = ret w1 [Reply AlreadyJoined]
     ∧ registered (str_of_int (tg_id u)) (bot_data w1) = true).
Proof.
  intros w1. subst w1. split; intros Hadm.
  - assert (world (join u now w) = w) as ->.
    { unfold join. by rewrite decide_True. }
    unfold join. by rewrite decide_True.
  - destruct (registered (str_of_int (tg_id u)) (bot_data w)) eqn:Hreg.
    + assert (world (join u now w) = w) as ->.
      { unfold join. rewrite decide_False by done. by rewrite Hreg. }
      unfold join. rewrite decide_False by done. by rewrite Hreg.
    + assert (world (join u now w)
              = set_bot
                  (set_queue (queue (bot_data w) ++ [str_of_int (tg_id u)])
                     (set_players
                        (dict_set (str_of_int (tg_id u))
                           {| username := display_name u; score := 0;
                              last_active := now |} (players (bot_data w)))
                        (bot_data w))) w) as ->.
      { unfold join. rewrite decide_False by done. by rewrite Hreg. }
      assert (registered (str_of_int (tg_id u))
                (set_queue (queue (bot_data w) ++ [str_of_int (tg_id u)])
                   (set_players
                      (dict_set (str_of_int (tg_id u))
                         {| username := display_name u; score := 0;
                            last_active := now |} (players (bot_data w)))
                      (bot_data w))) = true) as Hreg'.
      { apply bool_decide_eq_true. simpl. rewrite dict_get_set_eq.
        by eexists. }
      unfold join. simpl. rewrite decide_False by done. by rewrite Hreg'.
Qed.

(** ** The menu and the list of victims *)

(** X15. When the menu offers the robbery, the user holds the turn and has
    at least 2 points, and the list of victims shown on pressing the button
    contains a player other than the user who has at least 10 points. *)
Theorem menu_steal_has_victim (u : User) (dice : Z) (w : World)
    (is_my_turn : bool) :
  menu u w = ret w [Reply (Menu is_my_turn true)] →
  is_my_turn = true
  ∧ head (queue (bot_data w)) = Some (str_of_int (tg_id u))
  ∧ (∃ me, dict_get (str_of_int (tg_id u)) (players (bot_data w)) = Some me
           ∧ 2 ≤ score me)
  ∧ ∃ targets target victim,
      steal_handler u DSteal dice w = ret w [Reply (TargetList targets)]
      ∧ target ∈ targets
      ∧ target ≠ str_of_int (tg_id u)
      ∧ (target, victim) ∈ players (bot_data w)
      ∧ 10 ≤ score victim.
Proof.
  unfold menu. case_decide as Hadm; [done|].
  destruct (dict_get _ _) as [me|] eqn:Hme; [|done].
  destruct (state_game_active _) eqn:Hact; [|done]. simpl.
  intros [= <- Hcan].
  apply andb_prop in Hcan as [Hcan Hrich].
  apply andb_prop in Hcan as [Hcan Hbal].
  apply andb_prop in Hcan as [Hturn Hothers].
  rewrite Hturn. apply bool_decide_eq_true in Hturn, Hbal.
  split; [done|]. split; [done|]. split; [by exists me|].
  apply existsb_exists in Hrich as ([target victim] & Hin & Hv).
  apply andb_prop in Hv as [Hne Hten]. simpl in *.
  apply bool_decide_eq_true in Hne, Hten.
  eexists _, target, victim.
  unfold steal_handler, steal_target_kb, active_player.
  assert (registered (str_of_int (tg_id u)) (bot_data w) = true) as ->.
  { apply bool_decide_eq_true. rewrite Hme. by eexists. }
  rewrite Hact. simpl.
  destruct (queue (bot_data w)) as [|current rest]; [done|].
  simpl in Hturn. injection Hturn as ->.
  rewrite decide_False by (by intros []).
  split; [reflexivity|].
  apply list_elem_of_In in Hin.
  split; [|done].
  apply list_elem_of_filter. split; [done|].
  unfold dict_keys. apply list_elem_of_fmap. by exists (target, victim).
Qed.

(** ** Closed locations carry their secret *)

Lemma find_dyn_elem_of (b : Z) (l : list Dyn) (d : Dyn) :
  find_dyn b l = Some d → d ∈ l.
Proof.
  induction l as [|x l IH]; simpl; [done|].
  case_decide; [intros [= <-]; by left|]. intros Hd. right. by apply IH.
Qed.

Lemma find_dyn_is_Some (b : Z) (l : list Dyn) (d : Dyn) :
  d ∈ l → dyn_id d = b → is_Some (find_dyn b l).
Proof.
  induction l as [|x l IH]; intros Hin Hid; [by apply elem_of_nil in Hin|].
  simpl. case_decide; [by eexists|].
  apply elem_of_cons in Hin as [->|Hin]; [done|]. by apply IH.
Qed.

Section Secrets.
Context `{ops : StrOps} (WORDS : list str).

Lemma solved_inv_ext (fs fs' : Files) :
  config fs' = config fs →
  buildings (load_state fs') = buildings (load_state fs) →
  solved_inv fs → solved_inv fs'.
Proof. unfold solved_inv. by intros -> ->. Qed.

Lemma solved_inv_guess (u : User) (text now1 now2 : str) (w : World) :
  solved_inv (files w) →
  config (files (world (handle_guess_word WORDS u text now1 now2 w)))
  = config (files w)
  ∧ solved_inv (files (world (handle_guess_word WORDS u text now1 now2 w))).
Proof.
  intros Hinv.
  destruct (guess_frame_or_guards WORDS u text now1 now2 w)
    as [[_ ->]|(b_id & building & Hpend & Hreg & Hact & Hhead & Hlen
                 & Hdict & Hb)]; [done|].
  rewrite (guess_guards WORDS u text now1 now2 w b_id Hpend Hreg Hact Hhead
             Hlen Hdict building Hb).
  simpl.
  destruct (is_duplicate _ _); [done|].
  destruct (closed _) eqn:Hopen; [done|].
  destruct (compare_word _ _) as [colours|]; [|done].
  destruct (dict_get (str_of_int (tg_id u)) _) as [player|]; [|done].
  simpl. rewrite and_then_menu_world, and_then_ret_world.
  match goal with
  | |- context [advance_queue ?w1] =>
      destruct (advance_queue_frame w1) as (-> & _)
  end.
  simpl. split; [done|].
  unfold solved_inv in *. rewrite load_save_state. simpl.
  apply Forall_fmap, Forall_forall. intros d Hd.
  rewrite Forall_forall in Hinv. pose proof (Hinv d Hd) as Hprop.
  simpl. case_decide as Hid; [done|].
  assert (dyn_id d = b_id) as Hid' by by destruct (decide (dyn_id d = b_id)).
  unfold location_state in *.
  destruct (find_dyn_is_Some b_id _ d Hd Hid') as [d0 Hd0].
  rewrite Hd0 in *. simpl in *. rewrite Hopen.
  destruct (bool_decide _) eqn:Hsolved; [|done].
  apply bool_decide_eq_true in Hsolved. intros _.
  eexists _, building. split; [done|]. split; [|done].
  by rewrite (find_dyn_id _ _ _ Hd0).
Qed.

Lemma solved_inv_step (a : Action) (w : World) :
  solved_inv (files w) →
  config (files (world (step WORDS a w))) = config (files w)
  ∧ solved_inv (files (world (step WORDS a w))).
Proof.
  intros Hinv.
  destruct a as [u now|u draws|u|u|u text now1 now2|u data dice]; simpl.
  - by rewrite join_files.
  - destruct (decide (tg_id u = admin_id (bot_data w))) as [Hadm|Hadm];
      [|by rewrite begin_refused by by left].
    destruct (dict_keys (players (bot_data w))) as [|k keys] eqn:Hkeys.
    { rewrite begin_refused; [done|]. right.
      by destruct (players (bot_data w)). }
    destruct (begin_admin u draws w k keys Hadm Hkeys) as [_ ->].
    split; [done|]. unfold solved_inv in *. rewrite load_save_state. simpl.
    destruct (buildings (load_state (files w))) as [[|x l]|]; [| done |].
    all: by apply Forall_fmap, Forall_true.
  - by rewrite menu_world.
  - by rewrite score_cmd_world.
  - by apply solved_inv_guess.
  - unfold callback_handler.
    destruct (reset_marker_frame u data w) as [_ Hfiles].
    rewrite <- Hfiles in *.
    destruct data; simpl;
      rewrite ?menu_world, ?score_cmd_world, ?player_or_admin_display,
        ?steal_files; try done.
    unfold reset_game, admin_only. case_decide; [done|]. simpl.
    split; [done|]. unfold solved_inv. simpl. constructor.
Qed.

Lemma solved_inv_run (acts : list Action) (w0 : World) :
  solved_inv (files w0) →
  config (files (run WORDS acts w0)) = config (files w0)
  ∧ solved_inv (files (run WORDS acts w0)).
Proof.
  revert w0. induction acts as [|a acts IH]; intros w0 Hw0; simpl; [done|].
  destruct (solved_inv_step a w0 Hw0) as [Hcfg Hstep].
  destruct (IH _ Hstep) as [Hcfg' Hrun]. by rewrite Hcfg', Hcfg.
Qed.

(** X16. Started without a snapshot (or over one whose closed locations
    carry their secret), the process only ever closes a location on its
    secret: in every world it reaches, a closed location has a last attempt
    whose word equals the configured secret case-insensitively, so typing
    the secret at a closed location always meets the duplicate check. *)
Theorem closed_means_secret_recorded (ADMIN_ID : Z) (fs : Files)
    (acts : list Action) (b : Z) (d : Dyn) :
  solved_inv fs →
  let w := run WORDS acts (main ADMIN_ID fs) in
  location_state b (files w) = Some d →
  is_closed d = true →
  ∃ last building,
    last_attempt d = Some last
    ∧ find_building b (config fs) = Some building
    ∧ upper (attempt_word last) = upper (target_word building)
    ∧ (∀ text, upper (strip text) = upper (target_word building) →
               is_duplicate (Some d) (upper (strip text)) = true).
Proof.
  intros Hinv w Hloc Hclosed.
  destruct (solved_inv_run acts (main ADMIN_ID fs) Hinv) as [Hcfg Hw].
  fold w in Hcfg, Hw.
  unfold solved_inv in Hw. rewrite Forall_forall in Hw.
  destruct (Hw d (find_dyn_elem_of _ _ _ Hloc) Hclosed)
    as (last & building & Hlast & Hb & Hword).
  exists last, building. rewrite <- (find_dyn_id _ _ _ Hloc).
  simpl in Hcfg. rewrite <- Hcfg. repeat split; try done.
  intros text Htext. apply (is_duplicate_true d last); [done|]. congruence.
Qed.
End Secrets.

(** ** The rules text in slices *)

Lemma slices_concat (n : nat) (raw : str) (m : nat) :
  concat ((λ i, take n (drop i raw)) <$> ((λ k, k * n)%nat <$> seq 0 m))
  = take (m * n) raw.
Proof.
  induction m as [|m IH]; [done|].
  rewrite seq_S, !fmap_app, concat_app, IH. simpl.
  rewrite app_nil_r, take_take_drop. f_equal. lia.
Qed.

Lemma slices_count (n len : nat) :
  (0 < n)%nat →
  let m := ((len + n - 1) / n)%nat in
  (len ≤ m * n)%nat ∧ (∀ k, k < m → k * n < len)%nat.
Proof.
  intros Hn m.
  pose proof (Nat.div_mod_eq (len + n - 1) n) as Hdiv.
  pose proof (Nat.mod_upper_bound (len + n - 1) n) as Hmod.
  fold m in Hdiv. split; [nia|]. intros k Hk. nia.
Qed.

(** X17. The slices of the rules text, put end to end, give the text back;
    there are as many as the length divided by 4000, rounded up; none is
    empty, each but the last has exactly 4000 code points and the last at
    most 4000. An empty rules file gives no slice at all. *)
Theorem rules_chunks_cover (raw : str) :
  concat (RULES_CHUNKS (Some raw)) = raw
  ∧ length (RULES_CHUNKS (Some raw))
    = ((length raw + chunk_size - 1) / chunk_size)%nat
  ∧ Forall (λ c, (0 < length c ≤ chunk_size)%nat) (RULES_CHUNKS (Some raw))
  ∧ (∀ i c, RULES_CHUNKS (Some raw) !! i = Some c →
            (S i < length (RULES_CHUNKS (Some raw)))%nat →
            length c = chunk_size)
  ∧ (RULES_CHUNKS (Some raw) = [] ↔ raw = []).
Proof.
  assert (0 < chunk_size)%nat as Hn by (unfold chunk_size; lia).
  unfold RULES_CHUNKS, range_step.
  generalize dependent chunk_size. intros n Hn.
  destruct (slices_count n (length raw) Hn) as [Hcover Hinside].
  set (m := ((length raw + n - 1) / n)%nat) in *.
  assert (∀ i c,
            ((λ i, take n (drop i raw)) <$> ((λ k, k * n)%nat <$> seq 0 m))
            !! i = Some c →
            (i < m)%nat ∧ c = take n (drop (i * n) raw)) as Hlookup.
  { intros i c Hc. rewrite !list_lookup_fmap in Hc.
    destruct (seq 0 m !! i) as [k|] eqn:Hk; [|done].
    apply lookup_seq in Hk as [-> ?]. simpl in Hc. by injection Hc as <-. }
  split; [|split; [|split; [|split]]].
  - rewrite slices_concat. by apply take_ge.
  - by rewrite !length_fmap, length_seq.
  - apply Forall_forall. intros c [i Hc]%list_elem_of_lookup.
    apply Hlookup in Hc as [Hi ->]. specialize (Hinside i Hi).
    rewrite length_take, length_drop. lia.
  - intros i c Hc Hlast. rewrite !length_fmap, length_seq in Hlast.
    apply Hlookup in Hc as [Hi ->]. specialize (Hinside (S i) Hlast).
    rewrite length_take, length_drop. lia.
  - split.
    + intros Hnil. apply (f_equal length) in Hnil.
      rewrite !length_fmap, length_seq in Hnil. simpl in Hnil.
      rewrite Hnil in Hcover. destruct raw; [done|simpl in Hcover; lia].
    + intros ->. subst m. simpl.
      replace (n - 1 - 0)%nat with (n - 1)%nat by lia.
      by rewrite Nat.div_small by lia.
Qed.

(** ** The word list script *)

Section WordListProps.
Context `{ops : StrOps}.

Lemma normalised_cons (line : str) (lines : list str) :
  normalised (line :: lines)
  = if decide (strip line = []) then normalised lines
    else replace_yo (upper (strip line)) :: normalised lines.
Proof.
  unfold normalised. rewrite filter_cons.
  destruct (decide (strip line = [])) as [Heq|Hne].
  - by rewrite decide_False by (by intros []).
  - by rewrite decide_True.
Qed.

Lemma process_lines_spec (lines : list str) (seen : gset (list N))
    (result : list str) :
  (∀ x, x ∈ seen ↔ x ∈ result) →
  NoDup result →
  ∃ new,
    process_lines lines seen result = result ++ new
    ∧ NoDup (result ++ new)
    ∧ new `sublist_of` normalised lines
    ∧ (∀ x, x ∈ normalised lines → x ∈ result ++ new).
Proof.
  revert seen result.
  induction lines as [|line lines IH]; intros seen result Hseen Hnd.
  - exists []. rewrite app_nil_r. repeat split; try done.
    intros x Hx. by apply elem_of_nil in Hx.
  - cbn [process_lines]. rewrite normalised_cons.
    destruct (decide (strip line = [])) as [Hblank|Hword].
    { apply IH; done. }
    destruct (decide (replace_yo (upper (strip line)) ∈ seen)) as [Hin|Hout].
    + destruct (IH seen result Hseen Hnd) as (new & -> & Hnd' & Hsub & Hall).
      exists new. repeat split; try done.
      * by apply sublist_cons.
      * intros x [->|Hx]%elem_of_cons; [|by apply Hall].
        apply elem_of_app. left. by apply Hseen.
    + destruct (IH ({[replace_yo (upper (strip line))]} ∪ seen)
                  (result ++ [replace_yo (upper (strip line))]))
        as (new & -> & Hnd' & Hsub & Hall).
      * intros x. rewrite elem_of_union, elem_of_singleton, elem_of_app,
          list_elem_of_singleton, Hseen. tauto.
      * apply NoDup_app. split; [done|]. split; [|apply NoDup_singleton].
        intros x Hx ->%list_elem_of_singleton. by apply Hout, Hseen.
      * exists (replace_yo (upper (strip line)) :: new).
        rewrite <- (assoc_L (++)) in *. simpl in *.
        repeat split; try done.
        -- by apply sublist_skip.
        -- intros x [->|Hx]%elem_of_cons; [|by apply Hall].
           apply elem_of_app. right. by left.
Qed.

Lemma process_lines_app (l1 l2 : list str) (seen : gset (list N))
    (result : list str) :
  (∀ x, x ∈ seen ↔ x ∈ result) →
  ∃ seen',
    (∀ x, x ∈ seen' ↔ x ∈ process_lines l1 seen result)
    ∧ process_lines (l1 ++ l2) seen result
      = process_lines l2 seen' (process_lines l1 seen result).
Proof.
  revert seen result.
  induction l1 as [|line l1 IH]; intros seen result Hseen; [by exists seen|].
  cbn [process_lines app].
  destruct (decide (strip line = [])); [by apply IH|].
  destruct (decide (replace_yo (upper (strip line)) ∈ seen));
    [by apply IH|].
  apply IH. intros x.
  rewrite elem_of_union, elem_of_singleton, elem_of_app,
    list_elem_of_singleton, Hseen. tauto.
Qed.

(** X18. The word list written by the script has no word twice, holds
    exactly the normalised words of the non-blank lines (stripped,
    upper-cased, with the letter of code point 1025 replaced by 1045), and
    keeps them in the order of their first appearance: what is written for
    the beginning of a file stays in front when the file goes on. *)
Theorem process_file_dedup (lines : list str) :
  NoDup (process_file lines)
  ∧ process_file lines `sublist_of` normalised lines
  ∧ (∀ word, word ∈ process_file lines ↔ word ∈ normalised lines)
  ∧ (∀ word, word ∈ process_file lines → 1025%N ∉ word)
  ∧ (∀ more_lines,
       process_file lines `prefix_of` process_file (lines ++ more_lines)).
Proof.
  unfold process_file.
  assert (∀ x, x ∈ (∅ : gset (list N)) ↔ x ∈ ([] : list str)) as Hempty.
  { intros x. by rewrite elem_of_empty, elem_of_nil. }
  split; [|split; [|split; [|split]]].
  - destruct (process_lines_spec lines ∅ [] Hempty) as (new & -> & Hnd & _);
      [constructor|done].
  - destruct (process_lines_spec lines ∅ [] Hempty) as (new & -> & _ & Hsub & _);
      [constructor|done].
  - destruct (process_lines_spec lines ∅ [] Hempty)
      as (new & -> & _ & Hsub & Hall); [constructor|].
    intros word. split; [by apply sublist_subseteq|by apply Hall].
  - destruct (process_lines_spec lines ∅ [] Hempty) as (new & -> & _ & Hsub & _);
      [constructor|].
    intros word Hword. simpl in Hword.
    apply (sublist_subseteq _ _ Hsub) in Hword. unfold normalised in Hword.
    apply list_elem_of_fmap in Hword as (line & -> & _).
    unfold replace_yo. intros Hyo%list_elem_of_fmap.
    destruct Hyo as (c & Hc & _). by case_decide.
  - intros more_lines.
    destruct (process_lines_app lines more_lines ∅ [] Hempty)
      as (seen' & Hseen' & ->).
    destruct (process_lines_spec more_lines seen' (process_lines lines ∅ [])
                Hseen') as (new & -> & _).
    + destruct (process_lines_spec lines ∅ [] Hempty) as (new & -> & Hnd & _);
        [constructor|done].
    + by exists new.
Qed.
End WordListProps.

(** ** The score table *)

Lemma insert_desc_perm (p : Player) (l : list Player) :
  insert_desc p l ≡ₚ p :: l.
Proof.
  induction l as [|q l IH]; simpl; [done|].
  case_decide; [done|]. by rewrite IH, Permutation_swap.
Qed.

Lemma insert_desc_sorted (p : Player) (l : list Player) :
  StronglySorted (λ a b, score b ≤ score a) l →
  StronglySorted (λ a b, score b ≤ score a) (insert_desc p l).
Proof.
  induction 1 as [|q l Hl IH Hq]; simpl; [by repeat constructor|].
  case_decide as Hle.
  - constructor; [by constructor|].
    constructor; [done|].
    eapply Forall_impl; [exact Hq|]. simpl. intros r Hr. lia.
  - constructor; [done|].
    rewrite insert_desc_perm. constructor; [lia|done].
Qed.

Lemma insert_desc_filter (s : Z) (p : Player) (l : list Player) :
  filter (λ q, score q = s) (insert_desc p l)
  = filter (λ q, score q = s) (p :: l).
Proof.
  induction l as [|q l IH]; simpl; [done|].
  case_decide as Hle; [done|].
  rewrite (filter_cons _ q), IH, !filter_cons.
  repeat case_decide; try done. lia.
Qed.

Lemma sorted_players_perm (ps : list (str * Player)) :
  sorted_players ps ≡ₚ ps.*2.
Proof.
  unfold sorted_players. induction (ps.*2) as [|p l IH]; simpl; [done|].
  by rewrite insert_desc_perm, IH.
Qed.

(** X19. The rows of the score table are the registered players, each once,
    by decreasing score; players with equal scores keep the order in which
    they joined. *)
Theorem sorted_players_rows (ps : list (str * Player)) :
  sorted_players ps ≡ₚ ps.*2
  ∧ StronglySorted (λ p q, score q ≤ score p) (sorted_players ps)
  ∧ (∀ s, filter (λ p, score p = s) (sorted_players ps)
          = filter (λ p, score p = s) (ps.*2)).
Proof.
  unfold sorted_players. generalize (ps.*2). intros l.
  induction l as [|p l (IHperm & IHsorted & IHstable)]; simpl.
  - split; [done|]. split; [constructor|done].
  - split; [by rewrite insert_desc_perm, IHperm|].
    split; [by apply insert_desc_sorted|].
    intros s. by rewrite insert_desc_filter, !filter_cons, IHstable.
Qed.

Lemma max_len_ge (s : str) (l : list str) :
  s ∈ l → (length s ≤ max_len l)%nat.
Proof.
  unfold max_len. induction l as [|x l IH]; intros Hin;
    [by apply elem_of_nil in Hin|].
  rewrite fmap_cons. cbn [foldr].
  apply elem_of_cons in Hin as [->|Hin]; [lia|].
  specialize (IH Hin). lia.
Qed.

Lemma score_line_length (name_w score_w : nat) (p : Player) (current : bool) :
  (length (username p) ≤ name_w)%nat →
  (length (str_of_int (score p)) ≤ score_w)%nat →
  length (score_line name_w score_w p current)
  = (name_w + score_w + (if current then 5 else 6))%nat.
Proof.
  intros Hn Hs. unfold score_line, ljust, rjust, marker.
  rewrite !length_app, !length_replicate. destruct current; simpl; lia.
Qed.

Lemma score_lines_ok (bd : BotData) (cur : option str) (name_w score_w : nat)
    (rows : list Player) (flag : Player → bool) :
  (∀ p, is_current bd cur p = inr (flag p)) →
  score_lines bd cur name_w score_w rows
  = inr ((λ p, score_line name_w score_w p (flag p)) <$> rows).
Proof.
  intros Hflag. induction rows as [|p rows IH]; simpl; [done|].
  by rewrite Hflag, IH.
Qed.

(** X20. [format_score_table] over a registry and a queue that go together
    (as in every reachable world) does not raise. Without players it returns
    the standard sentence; otherwise a code block of one line per player, in
    the order of [sorted_players]. A line carries the hourglass exactly when
    the game is active and the player's name equals the name of the player
    at the head of the queue; such a line is 5 code points longer than the
    two column widths together, every other line 6. *)
Theorem format_score_table_lines (bd : BotData) :
  session_inv bd →
  (players bd = [] → format_score_table bd = inr nobody_plays)
  ∧ (players bd ≠ [] →
     ∃ lines name_w score_w,
       format_score_table bd
       = inr ([96; 96; 96; 10]%N ++ join_lines lines ++ [10; 96; 96; 96]%N)
       ∧ length lines = length (players bd)
       ∧ ∀ i line,
           lines !! i = Some line →
           ∃ p current,
             sorted_players (players bd) !! i = Some p
             ∧ line = score_line name_w score_w p current
             ∧ length line
               = (name_w + score_w + (if current then 5 else 6))%nat
             ∧ (current = true
                ↔ state_game_active bd = true
                  ∧ ∃ uid holder,
                      head (queue bd) = Some uid ∧ uid ≠ []
                      ∧ dict_get uid (players bd) = Some holder
                      ∧ username p = username holder)).
Proof.
  intros (Hnd & Hperm & _). split.
  { unfold format_score_table. by intros ->. }
  intros Hplayers.
  set (rows := sorted_players (players bd)).
  set (name_w := max_len (username <$> rows)).
  set (score_w := max_len ((λ p, str_of_int (score p)) <$> rows)).
  assert (∃ cur flag,
            cur_uid bd = inr cur
            ∧ (∀ p, is_current bd cur p = inr (flag p))
            ∧ ∀ p, flag p = true
                   ↔ state_game_active bd = true
                     ∧ ∃ uid holder,
                         head (queue bd) = Some uid ∧ uid ≠ []
                         ∧ dict_get uid (players bd) = Some holder
                         ∧ username p = username holder)
    as (cur & flag & Hcur & Hflag & Hiff).
  { unfold cur_uid. destruct (state_game_active bd) eqn:Hact.
    - destruct (queue bd) as [|uid rest] eqn:Hq.
      { apply Permutation_nil_l in Hperm. destruct (players bd); done. }
      assert (uid ∈ dict_keys (players bd)) as Hin
        by (rewrite <- Hperm; by left).
      apply dict_get_is_Some in Hin as [holder Hholder].
      destruct uid as [|c uid].
      + exists (Some []), (λ _, false). split; [done|]. split; [done|].
        intros p. split; [done|]. by intros (_ & uid' & h & [= <-] & ? & _).
      + exists (Some (c :: uid)),
          (λ p, bool_decide (username p = username holder)).
        split; [done|]. split; [by unfold is_current; rewrite Hholder|].
        intros p. rewrite bool_decide_eq_true. split.
        * intros Hname. split; [done|]. by exists (c :: uid), holder.
        * intros (_ & uid' & h & [= <-] & _ & Hh & Hname). congruence.
    - exists None, (λ _, false). split; [done|]. split; [done|].
      intros p. split; [done|]. by intros [? _]. }
  exists ((λ p, score_line name_w score_w p (flag p)) <$> rows), name_w, score_w.
  split; [|split].
  - unfold format_score_table. destruct (players bd) eqn:Hps; [done|].
    rewrite <- Hps, Hcur. subst name_w score_w rows.
    rewrite (score_lines_ok bd cur _ _ _ flag Hflag). by rewrite Hps.
  - rewrite length_fmap. subst rows.
    pose proof (sorted_players_perm (players bd)) as Hrows.
    apply Permutation_length in Hrows. by rewrite Hrows, length_fmap.
  - intros i line Hline. rewrite list_lookup_fmap in Hline.
    destruct (rows !! i) as [p|] eqn:Hp; [|done]. injection Hline as <-.
    exists p, (flag p). split; [done|]. split; [done|]. split; [|apply Hiff].
    apply list_elem_of_lookup_2 in Hp.
    apply score_line_length.
    + apply max_len_ge, list_elem_of_fmap. by exists p.
    + apply max_len_ge, list_elem_of_fmap. by exists p.
Qed.

(** ** Who can change the session *)

Lemma steal_refused (u : User) (data : Data) (dice : Z) (w : World) :
  registered (str_of_int (tg_id u)) (bot_data w) = false
  ∨ state_game_active (bot_data w) = false →
  world (steal_handler u data dice w) = w.
Proof.
  unfold steal_handler, active_player. intros [->| Hact]; [done|].
  rewrite Hact. by destruct (registered _ _).
Qed.

Section Gates.
Context `{ops : StrOps} (WORDS : list str).

Lemma guess_refused (u : User) (text now1 now2 : str) (w : World) :
  registered (str_of_int (tg_id u)) (bot_data w) = false
  ∨ state_game_active (bot_data w) = false →
  world (handle_guess_word WORDS u text now1 now2 w) = w.
Proof.
  unfold handle_guess_word, active_player. intros [->| Hact]; [done|].
  rewrite Hact. by destruct (registered _ _).
Qed.

(** X21. From a user who has not joined, and from anyone while the game is
    not active, the only steps that change the session or the files are
    [join], [begin] and the reset button: a text message, a robbery button,
    the menu, the score table and every other button leave both as they
    are. *)
Theorem session_gated (a : Action) (w : World) :
  registered (str_of_int (tg_id (actor a))) (bot_data w) = false
  ∨ state_game_active (bot_data w) = false →
  (∀ u now, a ≠ Join u now) →
  (∀ u draws, a ≠ Begin u draws) →
  (∀ u dice, a ≠ Callback u DResetGame dice) →
  bot_data (world (step WORDS a w)) = bot_data w
  ∧ files (world (step WORDS a w)) = files w.
Proof.
  intros Hgate Hjoin Hbegin Hreset.
  destruct a as [u now|u draws|u|u|u text now1 now2|u data dice]; simpl in *.
  - by destruct (Hjoin u now).
  - by destruct (Hbegin u draws).
  - by rewrite menu_world.
  - by rewrite score_cmd_world.
  - by rewrite guess_refused.
  - unfold callback_handler.
    destruct (reset_marker_frame u data w) as [Hbot Hfiles].
    rewrite <- Hbot in Hgate.
    destruct data; simpl;
      rewrite ?menu_world, ?score_cmd_world, ?player_or_admin_display,
        ?steal_refused by done; try done.
    by destruct (Hreset u dice).
Qed.

(** X22. A registered player stays registered, under the same name, through
    every step except the administrator's reset. *)
Theorem player_stays_registered (a : Action) (w : World) (k : str)
    (p : Player) :
  dict_get k (players (bot_data w)) = Some p →
  (∃ u dice, a = Callback u DResetGame dice
             ∧ tg_id u = admin_id (bot_data w))
  ∨ ∃ p', dict_get k (players (bot_data (world (step WORDS a w)))) = Some p'
          ∧ username p' = username p.
Proof.
  intros Hk.
  assert (∀ u data dice w0,
            bot_data w0 = bot_data w →
            ∃ p', dict_get k (players (bot_data (world (steal_handler u data
                                                           dice w0))))
                  = Some p'
                  ∧ username p' = username p) as Hsteal.
  { intros u data dice w0 Hw0.
    unfold steal_handler, steal_target_kb, active_player.
    repeat case_match; simpl; rewrite ?Hw0; try by exists p.
    all: rewrite and_then_menu_world, and_then_ret_world.
    all: match goal with
         | |- context [advance_queue ?w1] =>
             destruct (advance_queue_frame w1) as (_ & _ & -> & _)
         end.
    all: simpl; rewrite ?Hw0, !dict_get_alter, Hk.
    all: repeat case_decide; simpl; (eexists; split; [reflexivity|done]). }
  destruct a as [u now|u draws|u|u|u text now1 now2|u data dice]; simpl.
  - right. unfold join. case_decide; [by exists p|].
    destruct (registered _ _) eqn:Hreg; [by exists p|]. simpl.
    exists p. split; [|done].
    apply bool_decide_eq_false in Hreg.
    destruct (decide (k = str_of_int (tg_id u))) as [->|Hne].
    { destruct Hreg. rewrite Hk. by eexists. }
    clear Hreg. induction (players (bot_data w)) as [|[k0 v0] ps IH];
      [done|].
    simpl in *. destruct (decide (k = k0)) as [->|Hne0].
    + case_decide; simpl; [congruence|]. by rewrite decide_True.
    + case_decide; simpl; rewrite decide_False by done; [done|].
      by apply IH.
  - right. exists p. split; [|done].
    destruct (decide (tg_id u = admin_id (bot_data w))) as [Hadm|Hadm];
      [|by rewrite begin_refused by by left].
    destruct (dict_keys (players (bot_data w))) as [|k0 keys] eqn:Hkeys.
    { rewrite begin_refused; [done|]. right.
      by destruct (players (bot_data w)). }
    by destruct (begin_admin u draws w k0 keys Hadm Hkeys) as [-> _].
  - right. rewrite menu_world. by exists p.
  - right. rewrite score_cmd_world. by exists p.
  - right.
    destruct (guess_never_lowers_scores_aux WORDS u text now1 now2 w k p Hk)
      as (p' & ? & ? & _).
    by exists p'.
  - unfold callback_handler.
    destruct (reset_marker_frame u data w) as [Hbot _].
    destruct data; simpl;
      rewrite ?menu_world, ?score_cmd_world, ?player_or_admin_display,
        ?Hbot; try (right; by exists p); try (right; by apply Hsteal).
    destruct (decide (tg_id u = admin_id (bot_data w))) as [Hadm|Hadm].
    + left. by exists u, dice.
    + right. rewrite reset_refused by by rewrite Hbot.
      rewrite Hbot. by exists p.
Qed.

(** X23. The three ways [begin] ends. From anyone but the administrator it
    is refused; with an empty registry it answers that there are no players
    and changes nothing; otherwise it announces the player at the head of
    the new queue and sends that player the turn notice, without raising. *)
Theorem begin_outcomes (u : User) (draws : list nat) (w : World) :
  (tg_id u ≠ admin_id (bot_data w) →
   begin u draws w = ret w [Reply AdminOnly])
  ∧ (tg_id u = admin_id (bot_data w) → players (bot_data w) = [] →
     begin u draws w = ret w [Reply NoPlayers])
  ∧ (tg_id u = admin_id (bot_data w) → players (bot_data w) ≠ [] →
     ∃ first holder,
       head (queue (bot_data (world (begin u draws w)))) = Some first
       ∧ dict_get first (players (bot_data w)) = Some holder
       ∧ sent (begin u draws w)
         = [Reply (Started (username holder));
            TurnNotice first (username holder)]
       ∧ raised (begin u draws w) = None).
Proof.
  unfold begin, admin_only. split; [|split].
  - intros Hadm. by rewrite decide_True.
  - intros Hadm ->. by rewrite decide_False by (by intros []).
  - intros Hadm Hplayers. rewrite decide_False by (by intros []).
    destruct (dict_keys (players (bot_data w))) as [|k keys] eqn:Hkeys.
    { by destruct (players (bot_data w)). }
    pose proof (shuffle_perm draws (k :: keys)) as Hperm.
    destruct (shuffle draws (k :: keys)) as [|first rest] eqn:Hsh.
    { by apply Permutation_nil_cons in Hperm. }
    assert (first ∈ dict_keys (players (bot_data w))) as Hin.
    { rewrite Hkeys, <- Hperm. by left. }
    apply dict_get_is_Some in Hin as [holder Hholder].
    exists first, holder. simpl. rewrite Hholder.
    unfold and_then, notify_current_player. simpl. by rewrite Hholder.
Qed.
End Gates.

(** ** The further theorems at work on the small party *)

(** The started game of Alice and Bob. *)
Lemma reachable_queue_is_registry_witness :
  NoDup (queue (bot_data started))
  ∧ length (queue (bot_data started)) = 2%nat.
Proof.
  destruct (reachable_queue_is_registry (ops:=ascii_ops) demo_words started)
    as (Hnd & _ & Hlen); [apply started_reachable|].
  split; [exact Hnd|exact Hlen].
Defined.


(** Alice's CHEAP leaves Bob's record alone. *)
Lemma guess_never_lowers_scores_witness :
  ∃ p',
    dict_get (py "22")
      (players (bot_data (world (handle_guess_word (ops:=ascii_ops) demo_words
                                   alice (py "cheap") noon noon
                                   alice_choosing))))
    = Some p'
    ∧ score p' = 0.
Proof.
  edestruct (guess_never_lowers_scores (ops:=ascii_ops) demo_words alice
               (py "cheap") noon noon alice_choosing (py "22"))
    as (p' & Hget & _ & _ & Hsame); [vm_compute; reflexivity|].
  exists p'. split; [exact Hget|]. rewrite Hsame; [reflexivity|by vm_compute].
Defined.

(** Alice types a four-letter word and loses her selection. *)
Lemma selection_lifecycle_witness :
  handle_guess_word (ops:=ascii_ops) demo_words alice (py "pear") noon noon
    alice_choosing
  = ret (set_user_data (delete 11 (user_data alice_choosing)) alice_choosing)
      [Reply InvalidLength].
Proof.
  edestruct (selection_lifecycle (ops:=ascii_ops) demo_words alice (py "pear")
               noon noon alice_choosing 1)
    as (_ & Hlen & _); [vm_compute; reflexivity..|].
  apply Hlen; [reflexivity|]. by vm_compute.
Defined.

(** Alice's CHEAP at location 1 is worth 25 points and passes the turn. *)
Lemma recorded_guess_effects_witness :
  score
  <$> dict_get (str_of_int (tg_id alice))
        (players (bot_data (world (handle_guess_word (ops:=ascii_ops)
                                     demo_words alice (py "cheap") noon noon
                                     alice_choosing))))
  = Some 25
  ∧ queue (bot_data (world (handle_guess_word (ops:=ascii_ops) demo_words
                              alice (py "cheap") noon noon alice_choosing)))
    = [py "22"] ++ [str_of_int (tg_id alice)].
Proof.
  edestruct (recorded_guess_effects (ops:=ascii_ops) demo_words alice
               (py "cheap") noon noon alice_choosing 1)
    as (_ & Hscore & Hqueue & _);
    [|vm_compute; reflexivity..| | | | | |].
  - apply run_reachable; [apply started_reachable|]. by repeat constructor.
  - apply (bool_decide_unpack _). vm_compute. exact I.
  - vm_compute. reflexivity.
  - vm_compute. reflexivity.
  - vm_compute. reflexivity.
  - vm_compute. reflexivity.
  - split; [by rewrite Hscore|exact Hqueue].
Defined.

(** The administrator resets the solved game; Alice joins; the game begins
    anew with location 1 open. *)
Lemma reset_then_begin_reopens_witness :
  location_state 1
    (files (world (begin root [] (world (join alice noon
                                           (world (reset_game root solved)))))))
  = Some {| dyn_id := 1; last_attempt := None; is_closed := false |}.
Proof.
  destruct (reset_then_begin_reopens root solved) as (_ & _ & _ & _ & Hbegin);
    [reflexivity|].
  rewrite Hbegin; [reflexivity|apply join_files|reflexivity|by vm_compute].
Defined.

(** [begin] once more over the solved game: location 1 stays closed. *)
Lemma begin_again_keeps_progress_witness :
  is_closed <$> location_state 1 (files (world (begin root [0%nat] solved)))
  = Some true
  ∧ players (bot_data (world (begin root [0%nat] solved)))
    = players (bot_data solved).
Proof.
  edestruct (begin_again_keeps_progress root [0%nat] solved)
    as (Hloc & Hplayers & _);
    [reflexivity|by vm_compute|vm_compute; reflexivity|].
  split; [by rewrite Hloc|exact Hplayers].
Defined.

(** Bob picks location 1, then opens the menu: the selection is gone. *)
Lemma selection_dropped_unless_zero_witness :
  user_data (world (callback_handler bob DMenu 1
                      (world (callback_handler bob (DGuessAt 1) 1 started))))
  !! 22 = None.
Proof.
  destruct (selection_dropped_unless_zero bob 1 DMenu 1 1 started)
    as (_ & _ & _ & _ & Hgone & _); [reflexivity|].
  exact Hgone.
Defined.

(** Alice joins a second time. *)
Lemma join_twice_witness :
  join alice noon (world (join alice noon (main 99 demo_files)))
  = ret (world (join alice noon (main 99 demo_files))) [Reply AlreadyJoined].
Proof.
  destruct (join_twice alice noon noon (main 99 demo_files)) as (_ & Hplayer).
  apply Hplayer. by vm_compute.
Defined.

(** With 25 points against Bob's 20, Alice is offered the robbery and Bob is
    on her list. *)
Lemma menu_steal_has_victim_witness :
  ∃ targets,
    steal_handler alice DSteal 1 both_scored
    = ret both_scored [Reply (TargetList targets)].
Proof.
  edestruct (menu_steal_has_victim alice 1 both_scored true)
    as (_ & _ & _ & targets & target & victim & Hlist & _);
    [vm_compute; reflexivity|].
  exists targets. exact Hlist.
Defined.

(** The solved location 1 carries PEACH. *)
Lemma closed_means_secret_recorded_witness :
  ∃ last,
    last_attempt <$> location_state 1 (files solved) = Some (Some last)
    ∧ upper (StrOps:=ascii_ops) (attempt_word last) = py "PEACH".
Proof.
  edestruct (closed_means_secret_recorded (ops:=ascii_ops) demo_words 99
               demo_files (party ++ solving) 1)
    as (last & building & Hlast & Hb & Hword & _).
  - unfold solved_inv. simpl. constructor.
  - vm_compute. reflexivity.
  - reflexivity.
  - exists last. split; [vm_compute in Hlast |- *; by rewrite Hlast|].
    rewrite Hword. vm_compute in Hb. by injection Hb as <-.
Defined.

(** Three code points fit into one slice; no code point, no slice. *)
Lemma rules_chunks_cover_witness :
  RULES_CHUNKS (Some (py "abc")) = [py "abc"]
  ∧ RULES_CHUNKS (Some []) = [].
Proof.
  destruct (rules_chunks_cover []) as (_ & _ & _ & _ & Hnil).
  split; [by vm_compute|]. by apply Hnil.
Defined.

(** Three lines, two of them the same word. *)
Lemma process_file_dedup_witness :
  py "PEACH" ∈ process_file (ops:=ascii_ops) [py "peach "; []; py "Peach"]
  ∧ NoDup (process_file (ops:=ascii_ops) [py "peach "; []; py "Peach"]).
Proof.
  destruct (process_file_dedup (ops:=ascii_ops) [py "peach "; []; py "Peach"])
    as (Hnd & _ & Hiff & _).
  split; [|exact Hnd].
  apply Hiff. apply (bool_decide_unpack _). vm_compute. exact I.
Defined.

(** The table of the game after both have scored. *)
Lemma format_score_table_lines_witness :
  ∃ lines,
    format_score_table (bot_data both_scored)
    = inr ([96; 96; 96; 10]%N ++ join_lines lines ++ [10; 96; 96; 96]%N)
    ∧ length lines = 2%nat.
Proof.
  destruct (format_score_table_lines (bot_data both_scored))
    as (_ & Hlines).
  - apply (reachable_session_inv (ops:=ascii_ops) demo_words).
    apply run_reachable; [apply started_reachable|]. by repeat constructor.
  - destruct Hlines as (lines & name_w & score_w & Htable & Hlen & _);
      [by vm_compute|].
    exists lines. split; [exact Htable|exact Hlen].
Defined.

(** Bob types a word before the game has begun: nothing moves. *)
Lemma session_gated_witness :
  bot_data (world (step (ops:=ascii_ops) demo_words
                     (Text bob (py "cheap") noon noon) joined))
  = bot_data joined
  ∧ files (world (step (ops:=ascii_ops) demo_words
                    (Text bob (py "cheap") noon noon) joined))
    = files joined.
Proof.
  apply (session_gated (ops:=ascii_ops) demo_words
           (Text bob (py "cheap") noon noon) joined).
  - right. vm_compute. reflexivity.
  - intros u now. discriminate.
  - intros u draws. discriminate.
  - intros u dice. discriminate.
Defined.

(** Alice is still Alice after her CHEAP. *)
Lemma player_stays_registered_witness :
  ∃ p p',
    dict_get (str_of_int 11) (players (bot_data alice_choosing)) = Some p
    ∧ dict_get (str_of_int 11)
        (players (bot_data (world (step (ops:=ascii_ops) demo_words
                                     (Text alice (py "cheap") noon noon)
                                     alice_choosing))))
      = Some p'
    ∧ username p' = username p.
Proof.
  destruct (dict_get (str_of_int 11) (players (bot_data alice_choosing)))
    as [p|] eqn:Hp; [|by vm_compute in Hp].
  destruct (player_stays_registered (ops:=ascii_ops) demo_words
              (Text alice (py "cheap") noon noon) alice_choosing
              (str_of_int 11) p Hp)
    as [(u & dice & Ha & _)|(p' & Hp' & Hname)]; [discriminate|].
  exists p, p'. split; [reflexivity|]. split; [exact Hp'|exact Hname].
Defined.

(** The administrator starts the game of Alice and Bob. *)
Lemma begin_outcomes_witness :
  ∃ first,
    head (queue (bot_data (world (begin root [1%nat] joined)))) = Some first
    ∧ raised (begin root [1%nat] joined) = None.
Proof.
  destruct (begin_outcomes root [1%nat] joined) as (_ & _ & Hstart).
  destruct Hstart as (first & holder & Hhead & _ & _ & Hr);
    [reflexivity|by vm_compute|].
  exists first. split; [exact Hhead|exact Hr].
Defined.
